(** * Inventory service (server.js): a shallow embedding and its properties

    The Express application of [server.js] keeps an array [inventory], a
    counter [nextId] and the photo files of a cache directory.  Each route
    handler is embedded as a function from the store and the decoded request
    to the new store and the response.  The [multer] upload middleware that
    runs in front of two of the handlers is embedded as a step of its own,
    since it writes to the cache directory before the handler is entered.

    Conventions of the embedding:
    - a JavaScript number is an integer of [Z]; the two agree as long as
      the values stay below 2^53, where doubles are exact;
    - a string is a sequence of code units below 256;
    - the cache directory is a finite map from file names to contents, and
      [res.sendFile] answers with the content found under the name;
    - [Date.now()] and [Math.random()], read when an upload is named, come
      with the uploaded part;
    - a request is a decoded request: it carries the body fields and at
      most the one file part named [photo]; a multipart body that the
      decoder refuses, static files and the fallback route are not part of
      the embedding, and the calls to the file system do not fail. *)

From Stdlib Require Import ZArith String Ascii List Sorted.
From stdpp Require Import gmap strings list fin_maps pretty.

Open Scope string_scope.
Open Scope Z_scope.

(** ** JavaScript values and strings *)

Module Js.

(** The values a decoded request body can hold in one of its fields.
    [JUndefined] is a field that is absent.  [JNum] is a number that is an
    integer, in the range where doubles are exact and print in plain
    decimal.  [JOther] is any value left: an array, an object, a number
    with a fraction or beyond that range.  All of these are truthy and none is a string; the
    handlers see no more of them than the text that [String(v)] gives,
    which the constructor carries. *)
Inductive value : Type :=
| JUndefined
| JNull
| JBool (b : bool)
| JNum (n : Z)
| JStr (s : string)
| JOther (shown : string).

#[global] Instance value_eq_dec : EqDecision value.
Proof. solve_decision. Defined.

(** [ToBoolean]: what [!v], [v || w] and [v ? a : b] look at. *)
Definition truthy (v : value) : bool :=
  match v with
  | JUndefined | JNull => false
  | JBool b => b
  | JNum n => negb (n =? 0)
  | JStr s => negb (String.eqb s "")
  | JOther _ => true
  end.

(** [ToString]: what a template literal and [parseInt] apply. *)
Definition to_string (v : value) : string :=
  match v with
  | JUndefined => "undefined"
  | JNull => "null"
  | JBool true => "true"
  | JBool false => "false"
  | JNum n => pretty n
  | JStr s => s
  | JOther shown => shown
  end.

(** [v || w] *)
Definition or_else (v w : value) : value := if truthy v then v else w.

(** White space and line terminators, as far as they are code units below
    256: TAB, LF, VT, FF, CR, SP and NBSP. *)
Definition is_white (c : ascii) : bool :=
  let n := N_of_ascii c in
  ((9 <=? n) && (n <=? 13) || (n =? 32) || (n =? 160))%N.

Fixpoint trim_start (s : string) : string :=
  match s with
  | String c s' => if is_white c then trim_start s' else s
  | EmptyString => EmptyString
  end.

(** The suffix is dropped from the right: a character stays when it is
    not white space or when something stays after it. *)
Fixpoint trim_end (s : string) : string :=
  match s with
  | String c s' =>
      match trim_end s' with
      | EmptyString => if is_white c then EmptyString else String c EmptyString
      | t => String c t
      end
  | EmptyString => EmptyString
  end.

(** [String.prototype.trim] *)
Definition trim (s : string) : string := trim_end (trim_start s).

(** [String.prototype.startsWith] *)
Definition startsWith (s p : string) : bool := String.prefix p s.

(** The value of [c] as a digit in the given radix (10 or 16). *)
Definition digit (radix : Z) (c : ascii) : option Z :=
  let n := Z.of_N (N_of_ascii c) in
  let d :=
    if (48 <=? n) && (n <=? 57) then Some (n - 48)
    else if (97 <=? n) && (n <=? 122) then Some (n - 87)
    else if (65 <=? n) && (n <=? 90) then Some (n - 55)
    else None in
  match d with
  | Some k => if k <? radix then Some k else None
  | None => None
  end.

(** The longest prefix of digits, read in [radix]; [acc] is [None] as
    long as no digit was read. *)
Fixpoint digits (radix : Z) (acc : option Z) (s : string) : option Z :=
  match s with
  | String c s' =>
      match digit radix c with
      | Some d => digits radix (Some (radix * default 0 acc + d)) s'
      | None => acc
      end
  | EmptyString => acc
  end.

(** [parseInt(s)] with no radix argument: leading white space is skipped,
    a sign is read, then a [0x] or [0X] prefix selects radix 16, then the
    longest prefix of digits is the result, whatever follows it.  [None]
    is [NaN].  Numbers are doubles in the source and integers here:
    the two agree up to 2^53. *)
Definition parseInt (s : string) : option Z :=
  let s1 := trim_start s in
  let '(sign, s2) :=
    match s1 with
    | String "-" r => (-1, r)
    | String "+" r => (1, r)
    | _ => (1, s1)
    end in
  let '(radix, s3) :=
    match s2 with
    | String "0" (String "x" r) | String "0" (String "X" r) => (16, r)
    | _ => (10, s2)
    end in
  Z.mul sign <$> digits radix None s3.

(** [n === m] for a number [n] and the result [m] of [parseInt]:
    [NaN] is equal to nothing. *)
Definition strict_eq (n : Z) (m : option Z) : Prop := Some n = m.

End Js.

(** ** Data model *)

(** An element of the [inventory] array: the object built by the
    [/register] handler.  [inventory_name] and [description] hold whatever
    value a handler assigned; [photo] and [photo_url] are a string or
    [null]. *)
Module Item.
Record t : Type := mk {
  id : Z;
  inventory_name : Js.value;
  description : Js.value;
  photo : option string;
  photo_url : option string
}.
End Item.

(** The fields of [req.body] that the handlers read. *)
Module Body.
Record t : Type := mk {
  inventory_name : Js.value;
  description : Js.value;
  id : Js.value;
  has_photo : Js.value
}.
End Body.

(** The [photo] part of a multipart request, with the three readings the
    storage engine takes when it names the file: [Date.now()],
    [Math.round(Math.random() * 1E9)] and [path.extname(file.originalname)]. *)
Module File.
Record t : Type := mk {
  mimetype : string;
  data : string;
  now : Z;
  random : Z;
  extname : string
}.
End File.

(** The process state: the array, the counter and the files of the cache
    directory, by name. *)
Record store : Type := Store {
  inventory : list Item.t;
  nextId : Z;
  cache : gmap string string
}.

(** The state at startup; the cache directory may exist already and hold
    files. *)
Definition startup (dir : gmap string string) : store :=
  {| inventory := []; nextId := 1; cache := dir |}.

Inductive payload : Type :=
| ItemJson (item : Item.t)
| ItemsJson (items : list Item.t)
| ErrorJson (error : string)
| MessageJson (message : string)
| FileContent (content : string)
| Fault.

(** [Fault] with status 500 is what Express answers when a handler
    throws. *)
Record response : Type := Response { status : Z; sent : payload }.

Inductive request : Type :=
| PostRegister (body : Body.t) (part : option File.t)
| GetInventory
| GetItem (id : string)
| PutItem (id : string) (body : Body.t)
| GetPhoto (id : string)
| PutPhoto (id : string) (part : option File.t)
| DeleteItem (id : string)
| PostSearch (body : Body.t).

(** ** The upload middleware *)

Definition fileFilter (file : File.t) : bool :=
  Js.startsWith (File.mimetype file) "image/".

Definition filename (file : File.t) : string :=
  pretty (File.now file) +:+ "-" +:+ pretty (File.random file) +:+ File.extname file.

(** [upload.single('photo')]: a part that the filter accepts is written to
    the cache directory under the generated name and becomes [req.file]; a
    part that the filter refuses is skipped, without an error, and
    [req.file] stays undefined.  The second component is
    [req.file.filename]. *)
Definition upload_single (st : store) (part : option File.t) : store * option string :=
  match part with
  | Some file =>
      if fileFilter file
      then ({| inventory := inventory st; nextId := nextId st;
               cache := <[filename file := File.data file]> (cache st) |},
            Some (filename file))
      else (st, None)
  | None => (st, None)
  end.

(** ** Lookup *)

(** [i.id === parseInt(id)] *)
Definition same_id (id : Js.value) (i : Item.t) : Prop :=
  Js.strict_eq (Item.id i) (Js.parseInt (Js.to_string id)).

#[global] Instance same_id_dec id i : Decision (same_id id i).
Proof. unfold same_id, Js.strict_eq. apply _. Defined.

(** The first element that satisfies the predicate, with its position:
    what both [find] and [findIndex] scan for. *)
Definition first_match (inv : list Item.t) (id : Js.value) : option (nat * Item.t) :=
  list_find (same_id id) inv.

Definition findItem (inv : list Item.t) (id : Js.value) : option Item.t :=
  snd <$> first_match inv id.

Definition findItemIndex (inv : list Item.t) (id : Js.value) : Z :=
  from_option (λ p, Z.of_nat (fst p)) (-1) (first_match inv id).

(** ** Handlers *)

Definition not_found (msg : string) : response := Response 404 (ErrorJson msg).
Definition bad_request (msg : string) : response := Response 400 (ErrorJson msg).

(** [item.photo] as a condition *)
Definition has_photo (item : Item.t) : bool :=
  match Item.photo item with
  | Some f => Js.truthy (Js.JStr f)
  | None => false
  end.

(** [if (fs.existsSync(p)) fs.unlinkSync(p)] for the file [f] of the cache
    directory. *)
Definition unlink_if_exists (f : string) (dir : gmap string string) : gmap string string :=
  if bool_decide (is_Some (dir !! f)) then delete f dir else dir.

(** The files after the old photo of [item] has been removed, if it has
    one. *)
Definition drop_photo (item : Item.t) (dir : gmap string string) : gmap string string :=
  match Item.photo item with
  | Some f => if Js.truthy (Js.JStr f) then unlink_if_exists f dir else dir
  | None => dir
  end.

(** [`/inventory/${id}/photo`] *)
Definition photo_path (id : string) : string := "/inventory/" +:+ id +:+ "/photo".

(** [POST /register], after the middleware: [file] is
    [req.file.filename] when [req.file] is set.  Calling [trim] on a truthy
    value that is not a string throws. *)
Definition register (st : store) (body : Body.t) (file : option string) : store * response :=
  let name := Body.inventory_name body in
  if negb (Js.truthy name) then (st, bad_request "Inventory name is required")
  else
    match name with
    | Js.JStr s =>
        if negb (Js.truthy (Js.JStr (Js.trim s)))
        then (st, bad_request "Inventory name is required")
        else
          let item := {|
            Item.id := nextId st;
            Item.inventory_name := Js.JStr (Js.trim s);
            Item.description := Js.or_else (Body.description body) (Js.JStr "");
            Item.photo := file;
            Item.photo_url :=
              match file with
              | Some _ => Some (photo_path (pretty (nextId st)))
              | None => None
              end |} in
          ({| inventory := inventory st ++ [item];
              nextId := nextId st + 1;
              cache := cache st |},
           Response 201 (ItemJson item))
    | _ => (st, Response 500 Fault)
    end.

(** [GET /inventory] *)
Definition list_items (st : store) : store * response :=
  (st, Response 200 (ItemsJson (inventory st))).

(** [GET /inventory/:id] *)
Definition get_item (st : store) (id : string) : store * response :=
  match findItem (inventory st) (Js.JStr id) with
  | Some item => (st, Response 200 (ItemJson item))
  | None => (st, not_found "Item not found")
  end.

(** [PUT /inventory/:id].  [item] is the object in the array, so the
    assignments change the element at its position. *)
Definition update_item (st : store) (id : string) (body : Body.t) : store * response :=
  match first_match (inventory st) (Js.JStr id) with
  | None => (st, not_found "Item not found")
  | Some (k, item) =>
      let item1 :=
        if bool_decide (Body.inventory_name body ≠ Js.JUndefined)
        then Item.mk (Item.id item) (Body.inventory_name body) (Item.description item)
                     (Item.photo item) (Item.photo_url item)
        else item in
      let item2 :=
        if bool_decide (Body.description body ≠ Js.JUndefined)
        then Item.mk (Item.id item1) (Item.inventory_name item1) (Body.description body)
                     (Item.photo item1) (Item.photo_url item1)
        else item1 in
      ({| inventory := <[k := item2]> (inventory st);
          nextId := nextId st; cache := cache st |},
       Response 200 (ItemJson item2))
  end.

(** [GET /inventory/:id/photo] *)
Definition fetch_photo (st : store) (id : string) : store * response :=
  match findItem (inventory st) (Js.JStr id) with
  | None => (st, not_found "Photo not found")
  | Some item =>
      if negb (has_photo item) then (st, not_found "Photo not found")
      else
        match Item.photo item ≫= λ f, cache st !! f with
        | Some content => (st, Response 200 (FileContent content))
        | None => (st, not_found "Photo file not found")
        end
  end.

(** [PUT /inventory/:id/photo], after the middleware. *)
Definition replace_photo (st : store) (id : string) (file : option string) : store * response :=
  match first_match (inventory st) (Js.JStr id) with
  | None => (st, not_found "Item not found")
  | Some (k, item) =>
      match file with
      | None => (st, bad_request "Photo file is required")
      | Some new =>
          let item' := Item.mk (Item.id item) (Item.inventory_name item)
                         (Item.description item) (Some new) (Some (photo_path id)) in
          ({| inventory := <[k := item']> (inventory st);
              nextId := nextId st;
              cache := drop_photo item (cache st) |},
           Response 200 (ItemJson item'))
      end
  end.

(** [DELETE /inventory/:id] *)
Definition delete_item (st : store) (id : string) : store * response :=
  let index := findItemIndex (inventory st) (Js.JStr id) in
  if index =? -1 then (st, not_found "Item not found")
  else
    match inventory st !! Z.to_nat index with
    | Some item =>
        ({| inventory := delete (Z.to_nat index) (inventory st);
            nextId := nextId st;
            cache := drop_photo item (cache st) |},
         Response 200 (MessageJson "Item deleted successfully"))
    | None => (st, Response 500 Fault)
    end.

(** The line feed of the template literal in [/search]. *)
Definition LF : string := String (ascii_of_nat 10) EmptyString.

(** [POST /search].  [result] is a copy of the item; the array keeps the
    item itself. *)
Definition search (st : store) (body : Body.t) : store * response :=
  match findItem (inventory st) (Body.id body) with
  | None => (st, not_found "Item not found")
  | Some item =>
      let result :=
        if bool_decide (Body.has_photo body = Js.JStr "on") && has_photo item
        then Item.mk (Item.id item) (Item.inventory_name item)
               (Js.JStr (Js.to_string (Js.or_else (Item.description item) (Js.JStr ""))
                         +:+ LF +:+ "Photo: "
                         +:+ Js.to_string (from_option Js.JStr Js.JNull (Item.photo_url item))))
               (Item.photo item) (Item.photo_url item)
        else item in
      (st, Response 200 (ItemJson result))
  end.

(** A request goes through the middleware of its route, then through the
    handler. *)
Definition handle (st : store) (req : request) : store * response :=
  match req with
  | PostRegister body part =>
      let '(st1, file) := upload_single st part in register st1 body file
  | GetInventory => list_items st
  | GetItem id => get_item st id
  | PutItem id body => update_item st id body
  | GetPhoto id => fetch_photo st id
  | PutPhoto id part =>
      let '(st1, file) := upload_single st part in replace_photo st1 id file
  | DeleteItem id => delete_item st id
  | PostSearch body => search st body
  end.

(** The requests of a list, served one after the other; the responses come
    in the same order. *)
Fixpoint serve (st : store) (reqs : list request) : store * list response :=
  match reqs with
  | [] => (st, [])
  | req :: reqs' =>
      let '(st1, r) := handle st req in
      let '(st2, rs) := serve st1 reqs' in
      (st2, r :: rs)
  end.

(** The ids of the items that the responses report as created. *)
Definition created_ids (rs : list response) : list Z :=
  omap (λ r, match r with
             | Response 201 (ItemJson item) => Some (Item.id item)
             | _ => None
             end) rs.

(** ** Sample data *)

Definition png : File.t := File.mk "image/png" "PNG-BYTES" 1700000000000 123456789 ".png".
Definition jpg : File.t := File.mk "image/jpeg" "JPG-BYTES" 1700000000001 987654321 ".jpg".
Definition txt : File.t := File.mk "text/plain" "hello" 1700000000002 555 ".txt".

Definition named (s : string) : Body.t :=
  Body.mk (Js.JStr s) Js.JUndefined Js.JUndefined Js.JUndefined.

Definition drill : Item.t := Item.mk 1 (Js.JStr "Drill") (Js.JStr "") None None.
Definition saw : Item.t :=
  Item.mk 2 (Js.JStr "Saw") (Js.JStr "14in") (Some (filename png)) (Some (photo_path "2")).

(** Two items; the photo of the second is on disk. *)
Definition shop : store :=
  {| inventory := [drill; saw]; nextId := 3;
     cache := {[ filename png := File.data png ]} |}.

(** The same, after something else removed the file. *)
Definition shop_file_lost : store :=
  {| inventory := [drill; saw]; nextId := 3; cache := ∅ |}.

(** ** Conditions of the claims *)

(** [inventory_name] is absent, or empty once trimmed. *)
Definition name_missing (body : Body.t) : Prop :=
  Body.inventory_name body = Js.JUndefined ∨
  ∃ s, Body.inventory_name body = Js.JStr s ∧ Js.trim s = "".

(** The three situations in which [GET /inventory/:id/photo] has nothing
    to send. *)
Definition item_absent (st : store) (id : string) : Prop :=
  findItem (inventory st) (Js.JStr id) = None.

Definition photo_unset (st : store) (id : string) : Prop :=
  ∃ item, findItem (inventory st) (Js.JStr id) = Some item ∧ has_photo item = false.

Definition file_absent (st : store) (id : string) : Prop :=
  ∃ item f, findItem (inventory st) (Js.JStr id) = Some item ∧
            has_photo item = true ∧ Item.photo item = Some f ∧ cache st !! f = None.

(** Every id in the collection is below the counter, and no two items
    share an id. *)
Definition distinct_ids (st : store) : Prop :=
  NoDup (Item.id <$> inventory st) ∧
  Forall (λ item, Item.id item < nextId st) (inventory st).

(** ** Conditions of the further properties *)

(** A text of white space only. *)
Fixpoint all_white (s : string) : bool :=
  match s with
  | String c s' => Js.is_white c && all_white s'
  | EmptyString => true
  end.

(** A text at which the reading of a decimal number stops: it is empty or
    starts with a character that is no decimal digit. *)
Definition stops_number (s : string) : bool :=
  match s with
  | String c _ => match Js.digit 10 c with Some _ => false | None => true end
  | EmptyString => true
  end.

(** The routes whose handlers only read. *)
Definition read_only (req : request) : bool :=
  match req with
  | GetInventory | GetItem _ | GetPhoto _ | PostSearch _ => true
  | PostRegister _ _ | PutItem _ _ | PutPhoto _ _ | DeleteItem _ => false
  end.

(** The number of deletions that the responses confirm. *)
Definition deletions (rs : list response) : nat :=
  length (omap (λ r, match r with
                     | Response 200 (MessageJson _) => Some tt
                     | _ => None
                     end) rs).

(** The photo fields of an item go together: both are [null], or [photo]
    is a name that is not empty and [photo_url] is the photo path of a text
    that parses to the id of the item. *)
Definition photo_linked (item : Item.t) : Prop :=
  match Item.photo item, Item.photo_url item with
  | None, None => True
  | Some f, Some u =>
      f ≠ "" ∧ ∃ s, u = photo_path s ∧ Js.parseInt s = Some (Item.id item)
  | _, _ => False
  end.

(** A text of decimal digits only. *)
Fixpoint all_digits (s : string) : bool :=
  match s with
  | String c s' =>
      match Js.digit 10 c with Some _ => all_digits s' | None => false end
  | EmptyString => true
  end.

(** The request carries a part that the upload filter accepts. *)
Definition accepted (part : option File.t) : bool :=
  match part with
  | Some file => fileFilter file
  | None => false
  end.

(** The file names that the middleware writes while the requests are
    served: one for each part that the upload filter accepts. *)
Definition upload_names (reqs : list request) : list string :=
  reqs ≫= λ req,
    match req with
    | PostRegister _ (Some file) | PutPhoto _ (Some file) =>
        if fileFilter file then [filename file] else []
    | _ => []
    end.

(** The photo names of the collection are among [names]. *)
Definition photos_among (names : list string) (st : store) : Prop :=
  Forall (λ item, ∀ f, Item.photo item = Some f → f ∈ names) (inventory st).




(** * Properties *)

Example parseInt_decimal : Js.parseInt "42" = Some 42.
Proof. reflexivity. Qed.
Example parseInt_prefix : Js.parseInt "  -7abc" = Some (-7).
Proof. reflexivity. Qed.
Example parseInt_hex : Js.parseInt "0x1F" = Some 31.
Proof. reflexivity. Qed.
Example parseInt_letters : Js.parseInt "abc" = None.
Proof. reflexivity. Qed.
Example parseInt_empty : Js.parseInt "" = None.
Proof. reflexivity. Qed.
Example trim_both_sides : Js.trim "  Saw " = "Saw".
Proof. reflexivity. Qed.
Example trim_blank : Js.trim "   " = "".
Proof. reflexivity. Qed.
Example trim_keeps_inner : Js.trim " a b " = "a b".
Proof. reflexivity. Qed.
Example filename_png : filename png = "1700000000000-123456789.png".
Proof. vm_compute. reflexivity. Qed.

(** The scenario of the specification: a registration without a photo,
    then a search with the flag set. *)
Example register_drill :
  handle (startup ∅) (PostRegister (named "Drill") None)
  = ({| inventory := [drill]; nextId := 2; cache := ∅ |},
     Response 201 (ItemJson drill)).
Proof. reflexivity. Qed.

Example register_trims :
  snd (handle (startup ∅) (PostRegister (named " Saw ") None))
  = Response 201 (ItemJson (Item.mk 1 (Js.JStr "Saw") (Js.JStr "") None None)).
Proof. reflexivity. Qed.

(** ** Lookup *)

Section Lookup.
Implicit Types (inv : list Item.t) (id : Js.value) (item : Item.t).

Lemma findItem_Some inv id item :
  findItem inv id = Some item ↔ ∃ k, first_match inv id = Some (k, item).
Proof.
  unfold findItem. split.
  - intros ([k x] & Hf & ->)%fmap_Some. by exists k.
  - intros [k ->]. done.
Qed.

Lemma findItem_None inv id :
  findItem inv id = None ↔ first_match inv id = None.
Proof. unfold findItem. apply fmap_None. Qed.

Lemma first_match_lookup inv id k item :
  first_match inv id = Some (k, item) →
  inv !! k = Some item ∧ same_id id item.
Proof. intros (? & ? & _)%list_find_Some. done. Qed.

Lemma findItemIndex_Some inv id k item :
  first_match inv id = Some (k, item) → findItemIndex inv id = Z.of_nat k.
Proof. unfold findItemIndex. by intros ->. Qed.

Lemma findItemIndex_None inv id :
  first_match inv id = None → findItemIndex inv id = -1.
Proof. unfold findItemIndex. by intros ->. Qed.

(** Assigning to fields other than [id] leaves the object where
    [find] sees it. *)
Lemma first_match_insert inv id k item item' :
  first_match inv id = Some (k, item) →
  Item.id item' = Item.id item →
  first_match (<[k := item']> inv) id = Some (k, item').
Proof.
  unfold first_match. intros (Hk & Hid & Hleast)%list_find_Some Heq.
  apply list_find_insert_Some. right; left.
  split_and!; [done | done | by eapply lookup_lt_Some | | ].
  - unfold same_id in *. by rewrite Heq.
  - intros i z Hz Hlt. by apply (Hleast i).
Qed.

(** With distinct ids, the element that matches is the only one with
    its id. *)
Lemma first_match_unique inv id item :
  NoDup (Item.id <$> inv) → item ∈ inv → same_id id item →
  ∃ k, first_match inv id = Some (k, item).
Proof.
  intros Hnd Hin Hid.
  destruct (list_find_elem_of (same_id id) inv item Hin Hid) as [[k x] Hf].
  exists k. unfold first_match. rewrite Hf. do 2 f_equal.
  apply list_find_Some in Hf as (Hk & Hx & _).
  apply list_elem_of_lookup in Hin as [j Hj].
  assert (k = j) as ->; [|congruence].
  eapply NoDup_lookup; [exact Hnd | |].
  - rewrite list_lookup_fmap, Hk. reflexivity.
  - rewrite list_lookup_fmap, Hj. simpl. f_equal.
    unfold same_id, Js.strict_eq in *. congruence.
Qed.

Lemma first_match_delete inv id k item :
  NoDup (Item.id <$> inv) →
  first_match inv id = Some (k, item) →
  first_match (delete k inv) id = None.
Proof.
  intros Hnd (Hk & Hid & _)%list_find_Some.
  apply list_find_None, Forall_lookup. intros j y Hj Hy.
  assert (Hne : ∀ j', j' ≠ k → inv !! j' = Some y → False).
  { intros j' Hne Hj'. apply Hne.
    eapply NoDup_lookup; [exact Hnd | |].
    - rewrite list_lookup_fmap, Hj'. reflexivity.
    - rewrite list_lookup_fmap, Hk. simpl. f_equal.
      unfold same_id, Js.strict_eq in *. congruence. }
  destruct (decide (j < k)%nat).
  - rewrite list_lookup_delete_lt in Hj by done. apply (Hne j); [lia | done].
  - rewrite list_lookup_delete_ge in Hj by lia. apply (Hne (S j)); [lia | done].
Qed.
End Lookup.

(** ** The upload middleware *)

Lemma upload_single_frame st part :
  inventory (fst (upload_single st part)) = inventory st ∧
  nextId (fst (upload_single st part)) = nextId st.
Proof. unfold upload_single. destruct part as [f|]; [destruct (fileFilter f)|]; done. Qed.

Lemma filename_nonempty file : filename file ≠ "".
Proof.
  unfold filename. destruct (pretty (File.now file)) as [|c s]; simpl; discriminate.
Qed.

Lemma filename_truthy file : Js.truthy (Js.JStr (filename file)) = true.
Proof.
  simpl. destruct (String.eqb_spec (filename file) "") as [H|]; [|done].
  by apply filename_nonempty in H.
Qed.

(** ** Registration *)

Section Registration.
Implicit Types (st : store) (body : Body.t) (file : File.t).

(** A missing name stops the handler at its first test. *)
Lemma register_name_missing st body f :
  name_missing body →
  register st body f = (st, bad_request "Inventory name is required").
Proof.
  unfold register. intros [-> | (s & -> & Hs)]; [done|].
  destruct (Js.truthy (Js.JStr s)); simpl; [|done].
  by rewrite Hs.
Qed.

(** A part that the filter refuses leaves no trace: the handler sees the
    request of a client that sent no photo. *)
Lemma upload_single_refused st file :
  fileFilter file = false → upload_single st (Some file) = upload_single st None.
Proof. unfold upload_single. by intros ->. Qed.

(** C1, as stated, does not hold: the claim that a registration without a
    name returns 400, leaves the collection as it was and stores no photo
    file fails for a request that carries an image, which the middleware
    has written to the cache directory before the handler looks at the
    name. *)
Lemma nameless_register_stores_photo :
  ¬ (∀ st body part, name_missing body →
       let '(st', r) := handle st (PostRegister body part) in
       status r = 400 ∧ inventory st' = inventory st ∧ cache st' = cache st).
Proof.
  intros H.
  specialize (H (startup ∅) (named "   ") (Some png)).
  destruct H as (_ & _ & Hc); [right; by exists "   "|].
  apply (f_equal (λ m, m !! filename png)) in Hc.
  vm_compute in Hc. discriminate.
Qed.

(** C1, amended: a registration whose [inventory_name] is absent or empty
    after trimming is answered with 400 and adds no item (the collection
    and the counter are as before).  The handler writes nothing to the
    cache directory; the only file the request can leave there is the one
    the upload middleware stored before the handler ran, which happens
    exactly when the request carried a photo with an image media type. *)
Theorem register_without_name st body part :
  name_missing body →
  let '(st', r) := handle st (PostRegister body part) in
  r = Response 400 (ErrorJson "Inventory name is required") ∧
  inventory st' = inventory st ∧
  nextId st' = nextId st ∧
  cache st' = match part with
              | Some file =>
                  if Js.startsWith (File.mimetype file) "image/"
                  then <[filename file := File.data file]> (cache st)
                  else cache st
              | None => cache st
              end.
Proof.
  intros Hname. simpl.
  destruct (upload_single st part) as [st1 f] eqn:Hup.
  rewrite (register_name_missing _ _ _ Hname).
  unfold upload_single, fileFilter in Hup.
  destruct part as [file|]; [destruct (Js.startsWith _ _)|];
    by simplify_eq.
Qed.

(** The amended C1 on a request with a blank name and an image. *)
Lemma register_without_name_witness :
  let '(st', r) := handle (startup ∅) (PostRegister (named "   ") (Some png)) in
  r = Response 400 (ErrorJson "Inventory name is required") ∧
  inventory st' = [] ∧
  nextId st' = 1 ∧
  cache st' = <[filename png := File.data png]> ∅.
Proof.
  apply (register_without_name (startup ∅) (named "   ") (Some png)).
  right. exists "   ". split; reflexivity.
Defined.

(** C2, as stated, does not hold: the claim that a registration whose
    photo has a media type outside [image/] is rejected and creates no
    item fails: with a valid name the answer is 201 and the item is in
    the collection. *)
Lemma register_with_text_file_creates_item :
  ¬ (∀ st body file, Js.startsWith (File.mimetype file) "image/" = false →
       let '(st', r) := handle st (PostRegister body (Some file)) in
       status r = 400 ∧ inventory st' = inventory st).
Proof.
  intros H.
  specialize (H (startup ∅) (named "Drill") txt eq_refl).
  destruct H as [H _]. vm_compute in H. discriminate.
Qed.

(** C2, amended: a photo whose declared media type does not begin with
    [image/] is never persisted and never referenced.  The upload filter
    drops it without an error and the request is served exactly like the
    same request without a photo: the cache directory is unchanged, a
    created item has neither [photo] nor [photo_url], and with a name that
    is not empty after trimming the item is created (201). *)
Theorem register_non_image st body file :
  Js.startsWith (File.mimetype file) "image/" = false →
  handle st (PostRegister body (Some file)) = handle st (PostRegister body None) ∧
  let '(st', r) := handle st (PostRegister body (Some file)) in
  cache st' = cache st ∧
  (∀ item, r = Response 201 (ItemJson item) →
           Item.photo item = None ∧ Item.photo_url item = None) ∧
  (∀ s, Body.inventory_name body = Js.JStr s → Js.trim s ≠ "" →
        status r = 201 ∧ ∃ item, inventory st' = (inventory st ++ [item])%list).
Proof.
  intros Hf. split.
  { unfold handle. by rewrite upload_single_refused. }
  unfold handle. rewrite upload_single_refused by done. simpl.
  unfold register.
  destruct (Js.truthy (Body.inventory_name body)) eqn:Ht; simpl.
  2:{ split_and!; [done | intros ? [=] | ].
      intros s Hs Hne. rewrite Hs in Ht. simpl in Ht.
      destruct (String.eqb_spec s ""); [subst; by destruct Hne | done]. }
  destruct (Body.inventory_name body) eqn:Hn;
    try (split_and!; [done | intros ? [=] | intros ? [=]]).
  destruct (String.eqb_spec (Js.trim s) "") as [He|He]; simpl.
  - split_and!; [done | intros ? [=] | ]. intros ? [= <-] ?. done.
  - split_and!; [done | by intros ? [= <-] | ].
    intros ? _ _. split; [done|]. eauto.
Qed.

(** The amended C2 on a registration that carries a text file. *)
Lemma register_non_image_witness :
  handle (startup ∅) (PostRegister (named "Drill") (Some txt))
  = handle (startup ∅) (PostRegister (named "Drill") None) ∧
  let '(st', r) := handle (startup ∅) (PostRegister (named "Drill") (Some txt)) in
  cache st' = cache (startup ∅) ∧
  (∀ item, r = Response 201 (ItemJson item) →
           Item.photo item = None ∧ Item.photo_url item = None) ∧
  (∀ s, Body.inventory_name (named "Drill") = Js.JStr s → Js.trim s ≠ "" →
        status r = 201 ∧ ∃ item, inventory st' = (inventory (startup ∅) ++ [item])%list).
Proof.
  apply (register_non_image (startup ∅) (named "Drill") txt).
  reflexivity.
Defined.

End Registration.

(** ** Allocation of ids *)

Section Allocation.
Implicit Types (st : store) (req : request) (reqs : list request).

(** A request either creates no item and leaves the counter, or creates
    the item whose id is the counter and moves the counter by one. *)
Lemma handle_allocates st req :
  let '(st', r) := handle st req in
  (created_ids [r] = [] ∧ nextId st' = nextId st) ∨
  (created_ids [r] = [nextId st] ∧ nextId st' = nextId st + 1).
Proof.
  destruct req as [body part| |id|id body|id|id part|id|body]; simpl.
  - destruct (upload_single st part) as [st1 f] eqn:Hup.
    assert (nextId st1 = nextId st) as Hn
      by (pose proof (upload_single_frame st part) as [_ H]; by rewrite Hup in H).
    unfold register.
    destruct (Js.truthy (Body.inventory_name body)); simpl; [|by left].
    destruct (Body.inventory_name body) as [| |b|n|s|o]; try by left.
    destruct (String.eqb (Js.trim s) ""); simpl; [by left|].
    right. by rewrite Hn.
  - by left.
  - unfold get_item. destruct (findItem _ _); by left.
  - unfold update_item. destruct (first_match _ _) as [[k item]|]; by left.
  - unfold fetch_photo. destruct (findItem _ _) as [item|]; [|by left].
    destruct (has_photo item); simpl; [|by left].
    destruct (Item.photo item ≫= _); by left.
  - destruct (upload_single st part) as [st1 f] eqn:Hup.
    assert (nextId st1 = nextId st) as Hn
      by (pose proof (upload_single_frame st part) as [_ H]; by rewrite Hup in H).
    unfold replace_photo. destruct (first_match _ _) as [[k item]|]; [|by left].
    destruct f; by left.
  - unfold delete_item. destruct (_ =? _); [by left|].
    destruct (_ !! _); by left.
  - unfold search. destruct (findItem _ _); by left.
Qed.

Lemma created_ids_cons r rs : created_ids (r :: rs) = (created_ids [r] ++ created_ids rs)%list.
Proof. unfold created_ids. simpl. by destruct (match r with Response _ _ => _ end). Qed.

(** The ids created while a list of requests is served lie between the
    counter before and the counter after, and increase. *)
Lemma serve_allocates reqs st :
  let '(st', rs) := serve st reqs in
  nextId st ≤ nextId st' ∧
  Forall (λ i, nextId st ≤ i < nextId st') (created_ids rs) ∧
  StronglySorted Z.lt (created_ids rs).
Proof.
  revert st. induction reqs as [|req reqs IH]; intros st; simpl.
  { split_and!; [lia | constructor | constructor]. }
  pose proof (handle_allocates st req) as Hh.
  destruct (handle st req) as [st1 r].
  specialize (IH st1). destruct (serve st1 reqs) as [st2 rs].
  destruct IH as (Hle & Hall & Hsorted).
  rewrite created_ids_cons.
  destruct Hh as [[-> Hn] | [-> Hn]]; simpl; rewrite Hn in *.
  - done.
  - split_and!; [lia | |].
    + constructor; [lia|]. eapply Forall_impl; [exact Hall|]. simpl. lia.
    + constructor; [done|]. eapply Forall_impl; [exact Hall|]. simpl. lia.
Qed.

(** C3: over any sequence of requests served from startup, the ids
    returned by the successful registrations strictly increase in the
    order of the calls; hence no id is returned twice, and every id ever
    returned stays below the counter from which the next one is taken,
    whatever has been deleted in between. *)
Theorem created_ids_increase dir reqs :
  let '(st, rs) := serve (startup dir) reqs in
  StronglySorted Z.lt (created_ids rs) ∧
  NoDup (created_ids rs) ∧
  Forall (λ i, 1 ≤ i < nextId st) (created_ids rs).
Proof.
  pose proof (serve_allocates reqs (startup dir)) as H.
  destruct (serve (startup dir) reqs) as [st rs].
  destruct H as (_ & Hall & Hsorted). split_and!; [done | | done].
  clear Hall. induction Hsorted as [|i l _ IH Hlt]; constructor; [|done].
  intros Hin. eapply Forall_forall in Hlt; [|exact Hin]. lia.
Qed.

(** An id is not given again after its item was deleted. *)
Example id_not_reused_after_delete :
  created_ids (snd (serve (startup ∅)
    [PostRegister (named "Drill") None; DeleteItem "1";
     PostRegister (named "Saw") None])) = [1; 2].
Proof. reflexivity. Qed.

End Allocation.

(** ** Photos *)

Section Photos.
Implicit Types (st : store) (id : string) (file : File.t) (item : Item.t).

(** C4, as stated, does not hold: the claim that the three conditions
    give responses that cannot be told apart fails, because the body sent
    when the file is missing from the cache directory carries another
    message than the body sent when the item or its photo reference is
    missing. *)
Lemma fetch_photo_reveals_missing_file :
  ¬ (∀ st1 id1 st2 id2,
       item_absent st1 id1 ∨ photo_unset st1 id1 ∨ file_absent st1 id1 →
       item_absent st2 id2 ∨ photo_unset st2 id2 ∨ file_absent st2 id2 →
       snd (handle st1 (GetPhoto id1)) = snd (handle st2 (GetPhoto id2))).
Proof.
  intros H.
  specialize (H shop_file_lost "7" shop_file_lost "2").
  assert (item_absent shop_file_lost "7") as H1 by reflexivity.
  assert (file_absent shop_file_lost "2") as H2.
  { exists saw, (filename png). split_and!; reflexivity. }
  specialize (H (or_introl H1) (or_intror (or_intror H2))).
  vm_compute in H. discriminate.
Qed.

(** C4, amended: each of the three conditions makes
    [GET /inventory/:id/photo] answer 404 and leaves the store as it was.
    A missing item and an item without a photo reference give the same
    response, with the message "Photo not found"; a reference whose file
    is absent from the cache directory gives a 404 with the message
    "Photo file not found". *)
Theorem fetch_photo_not_found st id :
  item_absent st id ∨ photo_unset st id ∨ file_absent st id →
  let '(st', r) := handle st (GetPhoto id) in
  st' = st ∧ status r = 404 ∧
  (item_absent st id ∨ photo_unset st id → r = Response 404 (ErrorJson "Photo not found")) ∧
  (file_absent st id → r = Response 404 (ErrorJson "Photo file not found")).
Proof.
  unfold item_absent, photo_unset, file_absent. simpl. unfold fetch_photo.
  intros [Ha | [(item & Hi & Hp) | (item & f & Hi & Hp & Hf & Hc)]].
  - rewrite Ha. split_and!; [done | done | done | ].
    intros (? & ? & [=] & _).
  - rewrite Hi, Hp. simpl. split_and!; [done | done | done | ].
    intros (? & ? & [= <-] & ? & _). congruence.
  - rewrite Hi, Hp, Hf. simpl. rewrite Hc.
    split_and!; [done | done | | done].
    intros [[=] | (? & [= <-] & ?)]. congruence.
Qed.

(** The amended C4 on an item whose file has left the directory. *)
Lemma fetch_photo_not_found_witness :
  let '(st', r) := handle shop_file_lost (GetPhoto "2") in
  st' = shop_file_lost ∧ status r = 404 ∧
  (item_absent shop_file_lost "2" ∨ photo_unset shop_file_lost "2" →
   r = Response 404 (ErrorJson "Photo not found")) ∧
  (file_absent shop_file_lost "2" →
   r = Response 404 (ErrorJson "Photo file not found")).
Proof.
  apply (fetch_photo_not_found shop_file_lost "2").
  right; right. exists saw, (filename png). split_and!; reflexivity.
Defined.

Lemma unlink_if_exists_gone f (dir : gmap string string) :
  unlink_if_exists f dir !! f = None.
Proof.
  unfold unlink_if_exists. case_bool_decide as H.
  - apply lookup_delete_eq.
  - by apply eq_None_not_Some.
Qed.

Lemma unlink_if_exists_other f g (dir : gmap string string) :
  f ≠ g → unlink_if_exists f dir !! g = dir !! g.
Proof.
  intros. unfold unlink_if_exists. case_bool_decide; [|done].
  by apply lookup_delete_ne.
Qed.

(** The file of the item is gone afterwards, whether it was there or not. *)
Lemma drop_photo_gone item f (dir : gmap string string) :
  Item.photo item = Some f → has_photo item = true → drop_photo item dir !! f = None.
Proof.
  unfold drop_photo, has_photo. intros -> ->. apply unlink_if_exists_gone.
Qed.

Lemma drop_photo_other item g (dir : gmap string string) :
  Item.photo item ≠ Some g → drop_photo item dir !! g = dir !! g.
Proof.
  unfold drop_photo. intros Hne. destruct (Item.photo item) as [f|]; [|done].
  destruct (Js.truthy _); [|done].
  apply unlink_if_exists_other. congruence.
Qed.

Lemma has_photo_filename i n d file u :
  has_photo (Item.mk i n d (Some (filename file)) u) = true.
Proof. unfold has_photo. cbn [Item.photo]. apply filename_truthy. Qed.

(** C5, as stated, does not hold: the claim that, for every existing
    item, a replacement that succeeds is followed by a fetch that sends
    the uploaded content fails when the name generated for the upload is
    the name the item referred to before: the handler then unlinks, as
    the old file, the file that the middleware has just written, answers
    200, and the fetch answers 404. *)
Lemma replacement_under_old_name_loses_photo :
  ¬ (∀ st id file item,
       findItem (inventory st) (Js.JStr id) = Some item →
       fileFilter file = true →
       let '(st', r) := handle st (PutPhoto id (Some file)) in
       status r = 200 →
       snd (handle st' (GetPhoto id)) = Response 200 (FileContent (File.data file))).
Proof.
  intros H.
  specialize (H shop "2" png saw eq_refl eq_refl).
  vm_compute in H. specialize (H eq_refl). discriminate.
Qed.

(** C5, amended: for an existing item, a replacement that succeeds (the
    part was accepted by the upload filter) and whose generated file
    name differs from the name the item referred to before answers 200;
    fetching the photo of that id then sends the uploaded content, and
    the file the item referred to before is not in the cache directory
    any more.  Nothing is asked of the old file: the replacement
    succeeds as well when it was missing already. *)
Theorem replace_then_fetch st id file item :
  findItem (inventory st) (Js.JStr id) = Some item →
  fileFilter file = true →
  Item.photo item ≠ Some (filename file) →
  let '(st', r) := handle st (PutPhoto id (Some file)) in
  status r = 200 ∧
  handle st' (GetPhoto id) = (st', Response 200 (FileContent (File.data file))) ∧
  (∀ old, Item.photo item = Some old → has_photo item = true →
          cache st' !! old = None).
Proof.
  intros [k Hk]%findItem_Some Hfilter Hfresh. simpl.
  unfold upload_single. rewrite Hfilter. unfold replace_photo. simpl. rewrite Hk.
  split_and!; [done | | ].
  - unfold fetch_photo, findItem. cbn [inventory cache].
    erewrite first_match_insert; [|exact Hk|done]. cbn [fmap option_fmap option_map snd].
    rewrite has_photo_filename. cbn [negb Item.photo mbind option_bind].
    rewrite drop_photo_other by done.
    by rewrite lookup_insert_eq.
  - intros old Hold Hhas. simpl. by apply drop_photo_gone.
Qed.

(** The amended C5 on an item whose old file was missing already. *)
Lemma replace_then_fetch_witness :
  let '(st', r) := handle shop_file_lost (PutPhoto "2" (Some jpg)) in
  status r = 200 ∧
  handle st' (GetPhoto "2") = (st', Response 200 (FileContent (File.data jpg))) ∧
  (∀ old, Item.photo saw = Some old → has_photo saw = true →
          cache st' !! old = None).
Proof.
  apply (replace_then_fetch shop_file_lost "2" jpg saw).
  - reflexivity.
  - reflexivity.
  - vm_compute. discriminate.
Defined.

(** A replacement on disk: the new content is served and the old file
    has left the directory. *)
Example replace_photo_on_disk :
  let st' := fst (handle shop (PutPhoto "2" (Some jpg))) in
  snd (handle st' (GetPhoto "2")) = Response 200 (FileContent "JPG-BYTES") ∧
  cache st' !! filename png = None ∧
  cache st' !! filename jpg = Some "JPG-BYTES".
Proof. vm_compute. done. Qed.

(** Why the generated name has to differ from the old reference: if the
    two were the same, the handler would unlink the file that the
    middleware has just written under that name. *)
Example replace_photo_same_name :
  let st' := fst (handle shop (PutPhoto "2" (Some png))) in
  snd (handle st' (GetPhoto "2")) = Response 404 (ErrorJson "Photo file not found").
Proof. vm_compute. done. Qed.

End Photos.

(** ** Update *)

Section Update.
Implicit Types (st : store) (id : string) (body : Body.t) (item : Item.t).

(** The object after the two conditional assignments of the handler. *)
Lemma update_item_Some st id body k item :
  first_match (inventory st) (Js.JStr id) = Some (k, item) →
  ∃ item',
    handle st (PutItem id body)
    = ({| inventory := <[k := item']> (inventory st);
          nextId := nextId st; cache := cache st |},
       Response 200 (ItemJson item')) ∧
    Item.id item' = Item.id item ∧
    Item.photo item' = Item.photo item ∧
    Item.photo_url item' = Item.photo_url item ∧
    (Body.inventory_name body ≠ Js.JUndefined →
     Item.inventory_name item' = Body.inventory_name body) ∧
    (Body.inventory_name body = Js.JUndefined →
     Item.inventory_name item' = Item.inventory_name item) ∧
    (Body.description body ≠ Js.JUndefined →
     Item.description item' = Body.description body) ∧
    (Body.description body = Js.JUndefined →
     Item.description item' = Item.description item).
Proof.
  intros Hk. simpl. unfold update_item. rewrite Hk.
  eexists. split; [reflexivity|].
  do 2 case_bool_decide; simpl; split_and!; done.
Qed.

(** C6: on an existing item, [PUT /inventory/:id] answers 200 with the
    item as it is stored afterwards; a field present in the request has
    become the stored value just as it was sent, the empty string
    included, with no trimming and no test for emptiness; a field absent
    from the request has kept its stored value. *)
Theorem update_overwrites_present_fields st id body item :
  findItem (inventory st) (Js.JStr id) = Some item →
  let '(st', r) := handle st (PutItem id body) in
  ∃ item',
    findItem (inventory st') (Js.JStr id) = Some item' ∧
    r = Response 200 (ItemJson item') ∧
    (Body.inventory_name body ≠ Js.JUndefined →
     Item.inventory_name item' = Body.inventory_name body) ∧
    (Body.inventory_name body = Js.JUndefined →
     Item.inventory_name item' = Item.inventory_name item) ∧
    (Body.description body ≠ Js.JUndefined →
     Item.description item' = Body.description body) ∧
    (Body.description body = Js.JUndefined →
     Item.description item' = Item.description item).
Proof.
  intros [k Hk]%findItem_Some.
  destruct (update_item_Some st id body k item Hk)
    as (item' & -> & Hid & _ & _ & Hn1 & Hn2 & Hd1 & Hd2).
  exists item'. split_and!; try done.
  apply findItem_Some. exists k. cbn [inventory].
  by apply first_match_insert with item.
Qed.

(** C6 on an update that sends the empty string as name and no
    description. *)
Lemma update_overwrites_present_fields_witness :
  let '(st', r) :=
    handle shop (PutItem "2" (Body.mk (Js.JStr "") Js.JUndefined Js.JUndefined Js.JUndefined)) in
  ∃ item',
    findItem (inventory st') (Js.JStr "2") = Some item' ∧
    r = Response 200 (ItemJson item') ∧
    (Js.JStr "" ≠ Js.JUndefined → Item.inventory_name item' = Js.JStr "") ∧
    (Js.JStr "" = Js.JUndefined → Item.inventory_name item' = Item.inventory_name saw) ∧
    (Js.JUndefined ≠ Js.JUndefined → Item.description item' = Js.JUndefined) ∧
    (Js.JUndefined = Js.JUndefined → Item.description item' = Item.description saw).
Proof.
  apply (update_overwrites_present_fields shop "2"
           (Body.mk (Js.JStr "") Js.JUndefined Js.JUndefined Js.JUndefined) saw).
  reflexivity.
Defined.

(** The empty name is stored; the description, not sent, stays. *)
Example update_with_empty_name :
  inventory (fst (handle shop (PutItem "2" (named ""))))
  = [drill; Item.mk 2 (Js.JStr "") (Js.JStr "14in")
              (Some (filename png)) (Some (photo_path "2"))].
Proof. reflexivity. Qed.

(** C10: on an existing item, [PUT /inventory/:id] keeps the [id],
    [photo] and [photo_url] of the item; the array keeps its length and
    every other element, and the counter and the cache directory are
    untouched. *)
Theorem update_frame st id body k item :
  first_match (inventory st) (Js.JStr id) = Some (k, item) →
  let '(st', r) := handle st (PutItem id body) in
  (∃ item', inventory st' !! k = Some item' ∧
            Item.id item' = Item.id item ∧
            Item.photo item' = Item.photo item ∧
            Item.photo_url item' = Item.photo_url item) ∧
  length (inventory st') = length (inventory st) ∧
  (∀ j, j ≠ k → inventory st' !! j = inventory st !! j) ∧
  nextId st' = nextId st ∧
  cache st' = cache st.
Proof.
  intros Hk.
  destruct (update_item_Some st id body k item Hk)
    as (item' & -> & Hid & Hp & Hu & _).
  apply first_match_lookup in Hk as [Hk _]. cbn [inventory nextId cache].
  split_and!; [ | by rewrite length_insert | | done | done].
  - exists item'. split_and!; [|done..].
    apply list_lookup_insert_eq. by eapply lookup_lt_Some.
  - intros j Hj. by rewrite list_lookup_insert_ne.
Qed.

(** C10 on an update of the second of two items. *)
Lemma update_frame_witness :
  let '(st', r) := handle shop (PutItem "2" (named "Hand saw")) in
  (∃ item', inventory st' !! 1%nat = Some item' ∧
            Item.id item' = Item.id saw ∧
            Item.photo item' = Item.photo saw ∧
            Item.photo_url item' = Item.photo_url saw) ∧
  length (inventory st') = length (inventory shop) ∧
  (∀ j, j ≠ 1%nat → inventory st' !! j = inventory shop !! j) ∧
  nextId st' = nextId shop ∧
  cache st' = cache shop.
Proof.
  apply (update_frame shop "2" (named "Hand saw") 1%nat saw).
  reflexivity.
Defined.

End Update.

(** ** Deletion *)

Section Deletion.
Implicit Types (st : store) (id : string) (item : Item.t).

Lemma delete_item_Some st id k item :
  first_match (inventory st) (Js.JStr id) = Some (k, item) →
  handle st (DeleteItem id)
  = ({| inventory := delete k (inventory st);
        nextId := nextId st;
        cache := drop_photo item (cache st) |},
     Response 200 (MessageJson "Item deleted successfully")).
Proof.
  intros Hk. simpl. unfold delete_item.
  rewrite (findItemIndex_Some _ _ _ _ Hk).
  destruct (Z.eqb_spec (Z.of_nat k) (-1)) as [|_]; [lia|].
  rewrite Nat2Z.id.
  apply first_match_lookup in Hk as [-> _]. done.
Qed.

Lemma delete_item_None st id :
  first_match (inventory st) (Js.JStr id) = None →
  handle st (DeleteItem id) = (st, not_found "Item not found").
Proof.
  intros Hk. simpl. unfold delete_item.
  by rewrite (findItemIndex_None _ _ Hk).
Qed.

(** C7: for an item of a collection with distinct ids, the first
    [DELETE /inventory/:id] answers 200, takes the record out of the
    collection (the other records stay, in order) and leaves no file
    under the name the item referred to, whether that file was on disk
    or not; the other files stay.  The second [DELETE] on the same id
    answers 404 and changes nothing. *)
Theorem delete_twice st id k item :
  NoDup (Item.id <$> inventory st) →
  first_match (inventory st) (Js.JStr id) = Some (k, item) →
  let '(st1, r1) := handle st (DeleteItem id) in
  r1 = Response 200 (MessageJson "Item deleted successfully") ∧
  inventory st1 = delete k (inventory st) ∧
  findItem (inventory st1) (Js.JStr id) = None ∧
  (∀ f, Item.photo item = Some f → has_photo item = true → cache st1 !! f = None) ∧
  (∀ g, Item.photo item ≠ Some g → cache st1 !! g = cache st !! g) ∧
  handle st1 (DeleteItem id) = (st1, Response 404 (ErrorJson "Item not found")).
Proof.
  intros Hnd Hk. rewrite (delete_item_Some _ _ _ _ Hk).
  pose proof (first_match_delete _ _ _ _ Hnd Hk) as Hgone.
  split_and!; [done | done | | | | ].
  - by apply findItem_None.
  - intros f Hf Hhas. by apply drop_photo_gone.
  - intros g Hg. by apply drop_photo_other.
  - by apply delete_item_None.
Qed.

(** C7 on an item whose file was missing already. *)
Lemma delete_twice_witness :
  let '(st1, r1) := handle shop_file_lost (DeleteItem "2") in
  r1 = Response 200 (MessageJson "Item deleted successfully") ∧
  inventory st1 = delete 1%nat (inventory shop_file_lost) ∧
  findItem (inventory st1) (Js.JStr "2") = None ∧
  (∀ f, Item.photo saw = Some f → has_photo saw = true → cache st1 !! f = None) ∧
  (∀ g, Item.photo saw ≠ Some g → cache st1 !! g = cache shop_file_lost !! g) ∧
  handle st1 (DeleteItem "2") = (st1, Response 404 (ErrorJson "Item not found")).
Proof.
  apply (delete_twice shop_file_lost "2" 1%nat saw).
  - apply (bool_decide_unpack _). vm_compute. reflexivity.
  - reflexivity.
Defined.

Example delete_removes_record_and_file :
  fst (handle shop (DeleteItem "2"))
  = {| inventory := [drill]; nextId := 3; cache := ∅ |}.
Proof. vm_compute. reflexivity. Qed.

End Deletion.

(** ** The collection keeps distinct ids *)

Section Invariant.
Implicit Types (st : store) (req : request).

Lemma fmap_id_insert (inv : list Item.t) k item item' :
  inv !! k = Some item → Item.id item' = Item.id item →
  Item.id <$> <[k := item']> inv = Item.id <$> inv.
Proof.
  intros Hk Hid. rewrite list_fmap_insert, Hid.
  apply list_insert_id. by rewrite list_lookup_fmap, Hk.
Qed.

Lemma Forall_id_insert (inv : list Item.t) k item item' n :
  inv !! k = Some item → Item.id item' = Item.id item →
  Forall (λ i, Item.id i < n) inv →
  Forall (λ i, Item.id i < n) (<[k := item']> inv).
Proof.
  intros Hk Hid Hall. apply Forall_insert; [done|].
  rewrite Hid. by eapply (Forall_lookup_1 _ _ _ _ Hall).
Qed.

Lemma handle_distinct_ids st req :
  distinct_ids st → distinct_ids (fst (handle st req)).
Proof.
  intros [Hnd Hlt]. unfold distinct_ids.
  destruct req as [body part| |id|id body|id|id part|id|body]; simpl.
  - destruct (upload_single st part) as [st1 f] eqn:Hup.
    pose proof (upload_single_frame st part) as [Hi Hn]. rewrite Hup in Hi, Hn.
    simpl in Hi, Hn. unfold register.
    destruct (Js.truthy (Body.inventory_name body)); simpl;
      [|by rewrite Hi, Hn].
    destruct (Body.inventory_name body) as [| |b|n|s|o]; simpl;
      try (by rewrite Hi, Hn).
    destruct (String.eqb (Js.trim s) ""); simpl; [by rewrite Hi, Hn|].
    rewrite Hi, Hn. split.
    + rewrite fmap_app. apply NoDup_app. split_and!; [done | | apply NoDup_singleton].
      intros x (item & -> & Hin)%list_elem_of_fmap Hx.
      apply list_elem_of_singleton in Hx.
      eapply Forall_forall in Hlt; [|exact Hin]. simpl in Hx. lia.
    + apply Forall_app. split.
      * eapply Forall_impl; [exact Hlt|]. simpl. lia.
      * constructor; [simpl; lia | constructor].
  - done.
  - unfold get_item. by destruct (findItem _ _).
  - destruct (first_match (inventory st) (Js.JStr id)) as [[k item]|] eqn:Hk.
    + destruct (update_item_Some st id body k item Hk) as (item' & Heq & Hid & _).
      simpl in Heq. rewrite Heq. simpl.
      apply first_match_lookup in Hk as [Hk _].
      rewrite (fmap_id_insert _ _ _ _ Hk Hid).
      split; [done|]. by eapply Forall_id_insert.
    + unfold update_item. by rewrite Hk.
  - unfold fetch_photo. destruct (findItem _ _) as [item|]; [|done].
    destruct (has_photo item); simpl; [|done].
    by destruct (Item.photo item ≫= _).
  - destruct (upload_single st part) as [st1 f] eqn:Hup.
    pose proof (upload_single_frame st part) as [Hi Hn]. rewrite Hup in Hi, Hn.
    simpl in Hi, Hn. unfold replace_photo.
    destruct (first_match _ _) as [[k item]|] eqn:Hk; simpl; [|by rewrite Hi, Hn].
    destruct f as [new|]; simpl; [|by rewrite Hi, Hn].
    rewrite Hi in Hk |- *. rewrite Hn.
    apply first_match_lookup in Hk as [Hk _].
    erewrite fmap_id_insert; [|exact Hk|reflexivity].
    split; [done|]. eapply Forall_id_insert; [exact Hk|reflexivity|done].
  - destruct (first_match (inventory st) (Js.JStr id)) as [[k item]|] eqn:Hk.
    + pose proof (delete_item_Some st id k item Hk) as Heq.
      simpl in Heq. rewrite Heq. simpl. split.
      * rewrite list_fmap_delete.
        eapply sublist_NoDup; [exact Hnd | apply sublist_delete].
      * by apply Forall_delete.
    + pose proof (delete_item_None st id Hk) as Heq.
      simpl in Heq. by rewrite Heq.
  - unfold search. by destruct (findItem _ _).
Qed.

(** Whatever has been served since startup, the ids of the collection
    are distinct. *)
Lemma serve_distinct_ids reqs st :
  distinct_ids st → distinct_ids (fst (serve st reqs)).
Proof.
  revert st. induction reqs as [|req reqs IH]; intros st Hst; simpl; [done|].
  pose proof (handle_distinct_ids st req Hst) as H1.
  destruct (handle st req) as [st1 r]. specialize (IH st1 H1).
  by destruct (serve st1 reqs).
Qed.

Lemma startup_distinct_ids dir : distinct_ids (startup dir).
Proof. split; simpl; constructor. Qed.

Lemma reachable_NoDup dir reqs :
  NoDup (Item.id <$> inventory (fst (serve (startup dir) reqs))).
Proof. apply serve_distinct_ids, startup_distinct_ids. Qed.

End Invariant.

(** ** Lookup by id *)

Section GetItem.
Implicit Types (st : store) (id : string) (item : Item.t).

Lemma get_item_Some st id item :
  handle st (GetItem id) = (st, Response 200 (ItemJson item)) ↔
  findItem (inventory st) (Js.JStr id) = Some item.
Proof.
  simpl. unfold get_item. destruct (findItem _ _) as [x|]; split; intros H;
    by simplify_eq.
Qed.

Lemma get_item_None st id :
  findItem (inventory st) (Js.JStr id) = None →
  handle st (GetItem id) = (st, Response 404 (ErrorJson "Item not found")).
Proof. simpl. unfold get_item. by intros ->. Qed.

(** The lookup in terms of [parseInt]: in a collection with distinct
    ids, an item of the collection is the one returned exactly when its
    id is what [parseInt] makes of the requested text; what is returned
    is always an item of the collection; when no item has that id the
    answer is 404, and so it is when [parseInt] gives [NaN]. *)
Theorem get_item_by_integer_equality st id :
  NoDup (Item.id <$> inventory st) →
  (∀ item, item ∈ inventory st →
     (handle st (GetItem id) = (st, Response 200 (ItemJson item)) ↔
      Some (Item.id item) = Js.parseInt id)) ∧
  (∀ item, handle st (GetItem id) = (st, Response 200 (ItemJson item)) →
           item ∈ inventory st) ∧
  ((∀ item, item ∈ inventory st → Some (Item.id item) ≠ Js.parseInt id) →
   handle st (GetItem id) = (st, Response 404 (ErrorJson "Item not found"))) ∧
  (Js.parseInt id = None →
   handle st (GetItem id) = (st, Response 404 (ErrorJson "Item not found"))).
Proof.
  intros Hnd.
  assert (Hnone : (∀ item, item ∈ inventory st → Some (Item.id item) ≠ Js.parseInt id) →
                  handle st (GetItem id) = (st, Response 404 (ErrorJson "Item not found"))).
  { intros Hno. apply get_item_None, findItem_None, list_find_None, Forall_forall.
    intros x Hx. by apply Hno. }
  split_and!; [ | | done | ].
  - intros item Hin. rewrite get_item_Some, findItem_Some. split.
    + intros [k Hk]. by apply first_match_lookup in Hk as [_ ?].
    + intros Hid. by apply first_match_unique.
  - intros item [k Hk]%get_item_Some%findItem_Some.
    apply first_match_lookup in Hk as [Hk _]. by eapply list_elem_of_lookup_2.
  - intros Hnan. apply Hnone. intros item _. by rewrite Hnan.
Qed.

(** The lookup on a requested id with white space in front and letters
    behind. *)
Lemma get_item_by_integer_equality_witness :
  (∀ item, item ∈ inventory shop →
     (handle shop (GetItem " 2nd") = (shop, Response 200 (ItemJson item)) ↔
      Some (Item.id item) = Js.parseInt " 2nd")) ∧
  (∀ item, handle shop (GetItem " 2nd") = (shop, Response 200 (ItemJson item)) →
           item ∈ inventory shop) ∧
  ((∀ item, item ∈ inventory shop → Some (Item.id item) ≠ Js.parseInt " 2nd") →
   handle shop (GetItem " 2nd") = (shop, Response 404 (ErrorJson "Item not found"))) ∧
  (Js.parseInt " 2nd" = None →
   handle shop (GetItem " 2nd") = (shop, Response 404 (ErrorJson "Item not found"))).
Proof.
  apply (get_item_by_integer_equality shop " 2nd").
  apply (bool_decide_unpack _). vm_compute. reflexivity.
Defined.

Example get_item_found : snd (handle shop (GetItem "2")) = Response 200 (ItemJson saw).
Proof. reflexivity. Qed.

Example get_item_unparsable :
  snd (handle shop (GetItem "two")) = Response 404 (ErrorJson "Item not found").
Proof. reflexivity. Qed.

Example get_item_unknown :
  snd (handle shop (GetItem "3")) = Response 404 (ErrorJson "Item not found").
Proof. reflexivity. Qed.

End GetItem.

(** ** Search *)

Section SearchView.
Implicit Types (st : store) (body : Body.t) (item : Item.t).

(** No search changes the store. *)
Lemma search_pure st body : fst (handle st (PostSearch body)) = st.
Proof. simpl. unfold search. by destruct (findItem _ _). Qed.




(** The scenario of the specification: the item has no photo and the
    description comes back as stored. *)
Example search_without_photo :
  handle {| inventory := [drill]; nextId := 2; cache := ∅ |}
         (PostSearch (Body.mk Js.JUndefined Js.JUndefined (Js.JStr "1") (Js.JStr "on")))
  = ({| inventory := [drill]; nextId := 2; cache := ∅ |},
     Response 200 (ItemJson drill)).
Proof. reflexivity. Qed.

Example search_with_photo :
  snd (handle shop
         (PostSearch (Body.mk Js.JUndefined Js.JUndefined (Js.JStr "2") (Js.JStr "on"))))
  = Response 200 (ItemJson
      (Item.mk 2 (Js.JStr "Saw")
         (Js.JStr ("14in" +:+ LF +:+ "Photo: /inventory/2/photo"))
         (Some (filename png)) (Some "/inventory/2/photo"))).
Proof. reflexivity. Qed.

End SearchView.

(** ** Numbers as text, and back *)

Section Numerals.
Implicit Types (x : N) (s t : string) (acc : option Z).

Lemma digit_pretty_N_char x :
  (x < 10)%N → Js.digit 10 (pretty_N_char x) = Some (Z.of_N x).
Proof.
  intros Hx. destruct x as [|p]; [reflexivity|].
  do 4 (try destruct p as [p|p|]; try reflexivity; try lia).
Qed.

(** The digits of [x] are put in front of the text that follows. *)
Lemma pretty_N_go_app x s t : pretty_N_go x (s +:+ t) = pretty_N_go x s +:+ t.
Proof.
  revert s. induction (N.lt_wf_0 x) as [x _ IH]; intros s.
  assert (x = 0 ∨ 0 < x)%N as [-> | Hx] by lia.
  - by rewrite !pretty_N_go_0.
  - rewrite (pretty_N_go_step x (s +:+ t)), (pretty_N_go_step x s) by done.
    apply (IH (x `div` 10)%N ltac:(apply N.div_lt; lia)
              (String (pretty_N_char (x `mod` 10)) s)).
Qed.

(** Reading the digits of [x] shifts what was read before and adds [x]. *)
Lemma digits_pretty_N_go x s acc :
  (0 < x)%N →
  ∃ k, Js.digits 10 acc (pretty_N_go x s)
       = Js.digits 10 (Some (10 ^ k * default 0 acc + Z.of_N x)) s ∧ 0 < k.
Proof.
  revert s. induction (N.lt_wf_0 x) as [x _ IH]; intros s Hx.
  rewrite pretty_N_go_step by done.
  pose proof (N.mod_lt x 10 ltac:(lia)) as Hmod.
  pose proof (N.div_mod x 10 ltac:(lia)) as Hdm.
  assert (x `div` 10 = 0 ∨ 0 < x `div` 10)%N as [H0 | Hpos] by lia.
  - rewrite H0, pretty_N_go_0. exists 1. split; [|lia].
    cbn [Js.digits]. rewrite digit_pretty_N_char by done.
    do 2 f_equal. lia.
  - destruct (IH (x `div` 10)%N ltac:(apply N.div_lt; lia)
                (String (pretty_N_char (x `mod` 10)) s) Hpos) as (k & -> & Hk).
    exists (k + 1). split; [|lia].
    cbn [Js.digits]. rewrite digit_pretty_N_char by done.
    do 2 f_equal. cbn [default from_option id].
    rewrite Z.pow_add_r, Z.pow_1_r by lia.
    assert (Z.of_N x = 10 * Z.of_N (x `div` 10) + Z.of_N (x `mod` 10)) as -> by lia.
    ring.
Qed.

(** The first digit of a positive number is not a zero. *)
Lemma pretty_N_go_head x s :
  (0 < x)%N →
  ∃ c r d, pretty_N_go x s = String c r ∧ Js.digit 10 c = Some d ∧ 0 < d.
Proof.
  revert s. induction (N.lt_wf_0 x) as [x _ IH]; intros s Hx.
  rewrite pretty_N_go_step by done.
  pose proof (N.mod_lt x 10 ltac:(lia)) as Hmod.
  pose proof (N.div_mod x 10 ltac:(lia)) as Hdm.
  assert (x `div` 10 = 0 ∨ 0 < x `div` 10)%N as [H0 | Hpos] by lia.
  - rewrite H0, pretty_N_go_0. eexists _, _, _. split; [done|].
    split; [by apply digit_pretty_N_char | lia].
  - apply IH; [apply N.div_lt; lia | done].
Qed.

Lemma fmap_mul_1 (o : option Z) : Z.mul 1 <$> o = o.
Proof. by destruct o as [[| |]|]. Qed.

(** A text that starts with a digit other than zero is read in radix
    10, from its first character. *)
Lemma parseInt_decimal_head c r d :
  Js.digit 10 c = Some d → 0 < d →
  Js.parseInt (String c r) = Js.digits 10 None (String c r).
Proof.
  intros Hd Hpos.
  destruct c as [[] [] [] [] [] [] [] []]; vm_compute in Hd; try discriminate;
    injection Hd as <-; try lia;
    unfold Js.parseInt;
    match goal with
    | |- context [Js.trim_start (String ?c r)] =>
        change (Js.trim_start (String c r)) with (String c r)
    end;
    cbv beta iota zeta; apply fmap_mul_1.
Qed.

Lemma string_app_empty s : s +:+ "" = s.
Proof.
  induction s as [|c s IH]; [done|].
  change (String c s +:+ "") with (String c (s +:+ "")). by rewrite IH.
Qed.

Lemma trim_start_app_white ws t :
  all_white ws = true → Js.trim_start (ws +:+ t) = Js.trim_start t.
Proof.
  induction ws as [|c ws IH]; [done|]. cbn [all_white].
  intros [Hc Hws]%andb_prop.
  change (Js.trim_start (String c ws +:+ t))
    with (if Js.is_white c then Js.trim_start (ws +:+ t) else String c (ws +:+ t)).
  rewrite Hc. by apply IH.
Qed.

Lemma parseInt_app_white ws t :
  all_white ws = true → Js.parseInt (ws +:+ t) = Js.parseInt t.
Proof. intros H. unfold Js.parseInt. by rewrite trim_start_app_white. Qed.

Lemma digits_stop v junk :
  stops_number junk = true → Js.digits 10 (Some v) junk = Some v.
Proof.
  destruct junk as [|c r]; [done|]. cbn [stops_number Js.digits].
  by destruct (Js.digit 10 c).
Qed.

(** The decimal text of a positive number, with anything behind it that
    does not go on with a digit. *)
Lemma parseInt_positive p junk :
  stops_number junk = true →
  Js.parseInt (pretty (Zpos p) +:+ junk) = Some (Zpos p).
Proof.
  intros Hj.
  assert (pretty (Zpos p) +:+ junk = pretty_N_go (Npos p) junk) as ->.
  { unfold pretty, pretty_Z, pretty, pretty_positive, pretty, pretty_N.
    rewrite decide_False by done. by rewrite <- pretty_N_go_app. }
  destruct (pretty_N_go_head (Npos p) junk ltac:(lia)) as (c & r & d & Hs & Hd & Hpos).
  rewrite Hs, (parseInt_decimal_head c r d Hd Hpos), <- Hs.
  destruct (digits_pretty_N_go (Npos p) junk None ltac:(lia)) as (k & -> & _).
  cbn [default from_option]. rewrite Z.mul_0_r, Z.add_0_l.
  by apply digits_stop.
Qed.

Lemma parseInt_negative_head c r d :
  Js.digit 10 c = Some d → 0 < d →
  Js.parseInt (String "-" (String c r)) = Z.mul (-1) <$> Js.digits 10 None (String c r).
Proof.
  intros Hd Hpos.
  destruct c as [[] [] [] [] [] [] [] []]; vm_compute in Hd; try discriminate;
    injection Hd as <-; try lia; reflexivity.
Qed.

Lemma parseInt_pretty (n : Z) : Js.parseInt (pretty n) = Some n.
Proof.
  destruct n as [|p|p].
  - reflexivity.
  - rewrite <- (parseInt_positive p "") by done.
    by rewrite string_app_empty.
  - change (pretty (Zneg p)) with ("-" +:+ pretty_N_go (Npos p) "").
    destruct (pretty_N_go_head (Npos p) "" ltac:(lia)) as (c & r & d & Hs & Hd & Hpos).
    rewrite Hs. change ("-" +:+ String c r) with (String "-" (String c r)).
    rewrite (parseInt_negative_head c r d Hd Hpos), <- Hs.
    destruct (digits_pretty_N_go (Npos p) "" None ltac:(lia)) as (k & -> & _).
    cbn [default from_option Js.digits fmap option_fmap option_map].
    f_equal. lia.
Qed.
End Numerals.

(** ** Trimming *)

Section Trim.
Implicit Types (s t : string) (c : ascii).

Lemma trim_start_head s :
  Js.trim_start s = "" ∨ ∃ c r, Js.trim_start s = String c r ∧ Js.is_white c = false.
Proof.
  induction s as [|c s IH]; [by left|]. cbn [Js.trim_start].
  destruct (Js.is_white c) eqn:Hc; [done|]. right. by exists c, s.
Qed.

Lemma trim_end_cons c t :
  Js.trim_end (String c t)
  = match Js.trim_end t with
    | EmptyString => if Js.is_white c then EmptyString else String c EmptyString
    | r => String c r
    end.
Proof. done. Qed.

Lemma trim_end_idem t : Js.trim_end (Js.trim_end t) = Js.trim_end t.
Proof.
  induction t as [|c t IH]; [done|]. rewrite trim_end_cons.
  destruct (Js.trim_end t) as [|c2 r] eqn:Ht.
  - destruct (Js.is_white c) eqn:Hc; [done|].
    rewrite trim_end_cons. cbn [Js.trim_end]. by rewrite Hc.
  - rewrite trim_end_cons, IH. done.
Qed.

Lemma trim_end_keeps_head c t :
  Js.is_white c = false → ∃ r, Js.trim_end (String c t) = String c r.
Proof.
  intros Hc. rewrite trim_end_cons, Hc. destruct (Js.trim_end t); eauto.
Qed.

(** Trimming what is trimmed changes nothing. *)
Lemma trim_idem s : Js.trim (Js.trim s) = Js.trim s.
Proof.
  unfold Js.trim.
  destruct (trim_start_head s) as [-> | (c & r & -> & Hc)]; [done|].
  destruct (trim_end_keeps_head c r Hc) as [r' Hr]. rewrite Hr.
  cbn [Js.trim_start]. rewrite Hc, <- Hr. apply trim_end_idem.
Qed.

Lemma truthy_JStr s : Js.truthy (Js.JStr s) = true ↔ s ≠ "".
Proof.
  cbn [Js.truthy]. destruct (String.eqb_spec s ""); split; naive_solver.
Qed.
End Trim.

(** ** What a registration creates *)

Section Created.
Implicit Types (st : store) (body : Body.t) (item : Item.t).

(** The handler on a name that is a string and not blank. *)
Lemma register_Some st body s file :
  Body.inventory_name body = Js.JStr s → Js.trim s ≠ "" →
  register st body file
  = let item := Item.mk (nextId st) (Js.JStr (Js.trim s))
                  (Js.or_else (Body.description body) (Js.JStr "")) file
                  (match file with
                   | Some _ => Some (photo_path (pretty (nextId st)))
                   | None => None
                   end) in
    ({| inventory := inventory st ++ [item]; nextId := nextId st + 1; cache := cache st |},
     Response 201 (ItemJson item)).
Proof.
  intros Hn Ht. unfold register. rewrite Hn.
  assert (s ≠ "") as Hs by (intros ->; by apply Ht).
  apply truthy_JStr in Hs. apply truthy_JStr in Ht. by rewrite Hs, Ht.
Qed.

(** X1: a registration whose name is a string that is not blank answers
    201 with the new item, which is put at the end of the collection
    under the id the counter held; the counter moves by one.  The stored
    name is the trimmed name: it is not empty and trimming it again gives
    it back.  A description that is absent or empty is stored as the
    empty string. *)
Theorem register_creates st body part s :
  Body.inventory_name body = Js.JStr s → Js.trim s ≠ "" →
  let '(st', r) := handle st (PostRegister body part) in
  ∃ item name,
    r = Response 201 (ItemJson item) ∧
    inventory st' = (inventory st ++ [item])%list ∧
    nextId st' = nextId st + 1 ∧
    Item.id item = nextId st ∧
    Item.inventory_name item = Js.JStr name ∧
    name = Js.trim s ∧ name ≠ "" ∧ Js.trim name = name ∧
    (Js.truthy (Body.description body) = false → Item.description item = Js.JStr "") ∧
    (Js.truthy (Body.description body) = true →
     Item.description item = Body.description body).
Proof.
  intros Hn Ht. unfold handle.
  destruct (upload_single st part) as [st1 f] eqn:Hup.
  pose proof (upload_single_frame st part) as [Hi Hc]. rewrite Hup in Hi, Hc.
  cbn [fst] in Hi, Hc.
  rewrite (register_Some _ _ s f Hn Ht). cbv zeta.
  eexists _, (Js.trim s). cbn [inventory nextId Item.id Item.inventory_name Item.description].
  rewrite Hi, Hc. split_and!; try done.
  - apply trim_idem.
  - unfold Js.or_else. by intros ->.
  - unfold Js.or_else. by intros ->.
Qed.

Lemma register_creates_witness :
  let '(st', r) := handle shop (PostRegister (named "  Plane ") (Some jpg)) in
  ∃ item name,
    r = Response 201 (ItemJson item) ∧
    inventory st' = (inventory shop ++ [item])%list ∧
    nextId st' = nextId shop + 1 ∧
    Item.id item = nextId shop ∧
    Item.inventory_name item = Js.JStr name ∧
    name = Js.trim "  Plane " ∧ name ≠ "" ∧ Js.trim name = name ∧
    (Js.truthy Js.JUndefined = false → Item.description item = Js.JStr "") ∧
    (Js.truthy Js.JUndefined = true → Item.description item = Js.JUndefined).
Proof.
  apply (register_creates shop (named "  Plane ") (Some jpg) "  Plane ").
  - reflexivity.
  - vm_compute. discriminate.
Defined.

(** An item with a new id at the end of the collection is what its id
    finds. *)
Lemma first_match_fresh (inv : list Item.t) id item :
  Forall (λ i, Item.id i < Item.id item) inv →
  Js.parseInt (Js.to_string id) = Some (Item.id item) →
  first_match (inv ++ [item]) id = Some (length inv, item).
Proof.
  intros Hlt Hid. unfold first_match.
  rewrite list_find_app_r.
  - cbn. rewrite decide_True by (unfold same_id, Js.strict_eq; by rewrite Hid).
    reflexivity.
  - apply list_find_None. eapply Forall_impl; [exact Hlt|].
    intros i Hi. cbv beta in Hi. unfold same_id, Js.strict_eq. rewrite Hid.
    intros [= ?]. lia.
Qed.

(** X2: in a collection whose ids are distinct and below the counter,
    the item that a registration returns is the item that
    [GET /inventory/:id] returns for the decimal text of its id. *)
Theorem register_then_get st body part item :
  distinct_ids st →
  snd (handle st (PostRegister body part)) = Response 201 (ItemJson item) →
  let st' := fst (handle st (PostRegister body part)) in
  handle st' (GetItem (pretty (Item.id item))) = (st', Response 200 (ItemJson item)).
Proof.
  intros [_ Hlt] Hr. unfold handle in Hr |- *.
  destruct (upload_single st part) as [st1 f] eqn:Hup.
  pose proof (upload_single_frame st part) as [Hi Hc]. rewrite Hup in Hi, Hc.
  cbn [fst] in Hi, Hc.
  unfold register in Hr |- *.
  destruct (Js.truthy (Body.inventory_name body)); cbn [negb] in Hr |- *; [|done].
  destruct (Body.inventory_name body) as [| |b|n|s|o]; try done.
  destruct (Js.truthy (Js.JStr (Js.trim s))); cbn [negb] in Hr |- *; [|done].
  cbn [snd] in Hr. injection Hr as <-. cbn [fst].
  unfold get_item, findItem. cbn [inventory].
  erewrite first_match_fresh; [done | | ].
  - cbn [Item.id]. by rewrite Hi, Hc.
  - cbn [Js.to_string Item.id]. apply parseInt_pretty.
Qed.

Lemma register_then_get_witness :
  let st' := fst (handle shop (PostRegister (named "Plane") None)) in
  handle st' (GetItem (pretty (Item.id (Item.mk 3 (Js.JStr "Plane") (Js.JStr "") None None))))
  = (st', Response 200 (ItemJson (Item.mk 3 (Js.JStr "Plane") (Js.JStr "") None None))).
Proof.
  apply (register_then_get shop (named "Plane") None
           (Item.mk 3 (Js.JStr "Plane") (Js.JStr "") None None)).
  - split.
    + apply (bool_decide_unpack _). vm_compute. reflexivity.
    + apply (bool_decide_unpack _). vm_compute. reflexivity.
  - reflexivity.
Defined.

(** X3: in such a collection, a registration that carries an image
    returns an item whose [photo_url] is the photo path of its id, and
    [GET /inventory/:id/photo] for that id sends the uploaded content. *)
Theorem register_then_fetch_photo st body file item :
  distinct_ids st →
  fileFilter file = true →
  snd (handle st (PostRegister body (Some file))) = Response 201 (ItemJson item) →
  let st' := fst (handle st (PostRegister body (Some file))) in
  Item.photo_url item = Some (photo_path (pretty (Item.id item))) ∧
  handle st' (GetPhoto (pretty (Item.id item)))
  = (st', Response 200 (FileContent (File.data file))).
Proof.
  intros [_ Hlt] Hf Hr. unfold handle in Hr |- *.
  unfold upload_single in Hr |- *. rewrite Hf in Hr |- *.
  unfold register in Hr |- *. cbn [nextId inventory cache] in Hr |- *.
  destruct (Js.truthy (Body.inventory_name body)); cbn [negb] in Hr |- *; [|done].
  destruct (Body.inventory_name body) as [| |b|n|s|o]; try done.
  destruct (Js.truthy (Js.JStr (Js.trim s))); cbn [negb] in Hr |- *; [|done].
  cbn [snd] in Hr. injection Hr as <-. cbn [fst Item.photo_url Item.id].
  split; [done|].
  unfold fetch_photo, findItem. cbn [inventory cache].
  erewrite first_match_fresh; [ | done | cbn [Js.to_string Item.id]; apply parseInt_pretty].
  cbn [fmap option_fmap option_map snd].
  rewrite has_photo_filename. cbn [negb Item.photo mbind option_bind].
  by rewrite lookup_insert_eq.
Qed.

Lemma register_then_fetch_photo_witness :
  let item := Item.mk 3 (Js.JStr "Plane") (Js.JStr "") (Some (filename jpg))
                (Some (photo_path "3")) in
  let st' := fst (handle shop (PostRegister (named "Plane") (Some jpg))) in
  Item.photo_url item = Some (photo_path (pretty (Item.id item))) ∧
  handle st' (GetPhoto (pretty (Item.id item)))
  = (st', Response 200 (FileContent (File.data jpg))).
Proof.
  apply (register_then_fetch_photo shop (named "Plane") jpg
           (Item.mk 3 (Js.JStr "Plane") (Js.JStr "") (Some (filename jpg))
              (Some (photo_path "3")))).
  - split.
    + apply (bool_decide_unpack _). vm_compute. reflexivity.
    + apply (bool_decide_unpack _). vm_compute. reflexivity.
  - reflexivity.
  - reflexivity.
Defined.

End Created.

(** ** The collection over a run *)

Section Collection.
Implicit Types (st : store) (req : request) (reqs : list request).

Lemma StronglySorted_sublist (l1 l2 : list Z) :
  l1 `sublist_of` l2 → StronglySorted Z.lt l2 → StronglySorted Z.lt l1.
Proof.
  induction 1 as [|x l1 l2 Hsub IH|x l1 l2 Hsub IH]; intros Hs.
  - constructor.
  - apply StronglySorted_inv in Hs as [Hs Hx]. constructor; [by apply IH|].
    apply Forall_forall. intros y Hy.
    eapply Forall_forall in Hx; [exact Hx|]. by eapply elem_of_sublist.
  - apply StronglySorted_inv in Hs as [Hs _]. by apply IH.
Qed.

(** The ids of the collection after a request are among the ids before
    and the id the request created, in that order. *)
Lemma handle_ids st req :
  let '(st', r) := handle st req in
  Item.id <$> inventory st'
  `sublist_of` ((Item.id <$> inventory st) ++ created_ids [r])%list.
Proof.
  destruct req as [body part| |id|id body|id|id part|id|body]; simpl.
  - destruct (upload_single st part) as [st1 f] eqn:Hup.
    pose proof (upload_single_frame st part) as [Hi Hn]. rewrite Hup in Hi, Hn.
    simpl in Hi, Hn. unfold register.
    destruct (Js.truthy (Body.inventory_name body)); simpl;
      [|by rewrite Hi, app_nil_r].
    destruct (Body.inventory_name body) as [| |b|n|s|o]; simpl;
      try (by rewrite Hi, app_nil_r).
    destruct (String.eqb (Js.trim s) ""); simpl; [by rewrite Hi, app_nil_r|].
    by rewrite Hi, Hn, fmap_app.
  - by rewrite app_nil_r.
  - unfold get_item. destruct (findItem _ _); simpl; by rewrite app_nil_r.
  - destruct (first_match (inventory st) (Js.JStr id)) as [[k item]|] eqn:Hk.
    + destruct (update_item_Some st id body k item Hk) as (item' & Heq & Hid & _).
      simpl in Heq. rewrite Heq. simpl.
      apply first_match_lookup in Hk as [Hk _].
      by rewrite (fmap_id_insert _ _ _ _ Hk Hid), app_nil_r.
    + unfold update_item. rewrite Hk. simpl. by rewrite app_nil_r.
  - unfold fetch_photo. destruct (findItem _ _) as [item|]; simpl;
      [|by rewrite app_nil_r].
    destruct (has_photo item); simpl; [|by rewrite app_nil_r].
    destruct (Item.photo item ≫= _); simpl; by rewrite app_nil_r.
  - destruct (upload_single st part) as [st1 f] eqn:Hup.
    pose proof (upload_single_frame st part) as [Hi Hn]. rewrite Hup in Hi, Hn.
    simpl in Hi, Hn. unfold replace_photo.
    destruct (first_match _ _) as [[k item]|] eqn:Hk; simpl;
      [|by rewrite Hi, app_nil_r].
    destruct f as [new|]; simpl; [|by rewrite Hi, app_nil_r].
    rewrite Hi in Hk |- *. apply first_match_lookup in Hk as [Hk _].
    erewrite fmap_id_insert; [|exact Hk|reflexivity]. by rewrite app_nil_r.
  - destruct (first_match (inventory st) (Js.JStr id)) as [[k item]|] eqn:Hk.
    + pose proof (delete_item_Some st id k item Hk) as Heq.
      simpl in Heq. rewrite Heq. simpl.
      rewrite app_nil_r, list_fmap_delete. apply sublist_delete.
    + pose proof (delete_item_None st id Hk) as Heq.
      simpl in Heq. rewrite Heq. simpl. by rewrite app_nil_r.
  - unfold search. destruct (findItem _ _); simpl; by rewrite app_nil_r.
Qed.

Lemma serve_ids reqs st :
  let '(st', rs) := serve st reqs in
  Item.id <$> inventory st'
  `sublist_of` ((Item.id <$> inventory st) ++ created_ids rs)%list.
Proof.
  revert st. induction reqs as [|req reqs IH]; intros st; simpl.
  { by rewrite app_nil_r. }
  pose proof (handle_ids st req) as Hh.
  destruct (handle st req) as [st1 r].
  specialize (IH st1). destruct (serve st1 reqs) as [st2 rs].
  rewrite created_ids_cons, app_assoc.
  etrans; [exact IH|]. by apply sublist_app.
Qed.

(** X4: after any requests served from startup, every item of the
    collection has an id that one of the registrations of the run
    returned, and the items stand in the order in which they were
    registered: the ids of the collection are a subsequence of the ids
    created. *)
Theorem inventory_ids_created dir reqs :
  let '(st, rs) := serve (startup dir) reqs in
  Item.id <$> inventory st `sublist_of` created_ids rs.
Proof.
  pose proof (serve_ids reqs (startup dir)) as H.
  by destruct (serve (startup dir) reqs) as [st rs].
Qed.

(** X5: after any requests served from startup, [GET /inventory] sends
    the items by increasing id, and each id is at least 1 and below the
    counter. *)
Theorem inventory_sorted_by_id dir reqs :
  let st := fst (serve (startup dir) reqs) in
  snd (handle st GetInventory) = Response 200 (ItemsJson (inventory st)) ∧
  StronglySorted Z.lt (Item.id <$> inventory st) ∧
  Forall (λ item, 1 ≤ Item.id item < nextId st) (inventory st).
Proof.
  pose proof (serve_ids reqs (startup dir)) as Hsub.
  pose proof (serve_allocates reqs (startup dir)) as Hal.
  destruct (serve (startup dir) reqs) as [st rs]. cbn [fst].
  destruct Hal as (_ & Hall & Hsorted). cbn [startup inventory fmap list_fmap] in Hsub.
  rewrite app_nil_l in Hsub.
  split_and!; [done | by eapply StronglySorted_sublist | ].
  apply Forall_forall. intros item Hin.
  eapply Forall_forall in Hall; [exact Hall|].
  eapply elem_of_sublist; [|exact Hsub]. by apply list_elem_of_fmap_2.
Qed.

Lemma deletions_cons r rs : deletions (r :: rs) = (deletions [r] + deletions rs)%nat.
Proof.
  unfold deletions. simpl.
  by destruct (match r with Response _ _ => _ end).
Qed.

(** A request changes the length of the collection by what it creates
    and what it deletes. *)
Lemma handle_length st req :
  let '(st', r) := handle st req in
  (length (inventory st') + deletions [r]
   = length (inventory st) + length (created_ids [r]))%nat.
Proof.
  unfold deletions, created_ids.
  destruct req as [body part| |id|id body|id|id part|id|body]; simpl.
  - destruct (upload_single st part) as [st1 f] eqn:Hup.
    pose proof (upload_single_frame st part) as [Hi Hn]. rewrite Hup in Hi, Hn.
    simpl in Hi, Hn. unfold register.
    destruct (Js.truthy (Body.inventory_name body)); simpl; [|by rewrite Hi].
    destruct (Body.inventory_name body) as [| |b|n|s|o]; simpl; try (by rewrite Hi).
    destruct (String.eqb (Js.trim s) ""); simpl; [by rewrite Hi|].
    rewrite Hi, length_app. simpl. lia.
  - done.
  - unfold get_item. by destruct (findItem _ _).
  - unfold update_item. destruct (first_match _ _) as [[k item]|]; simpl; [|done].
    by rewrite length_insert.
  - unfold fetch_photo. destruct (findItem _ _) as [item|]; simpl; [|done].
    destruct (has_photo item); simpl; [|done].
    by destruct (Item.photo item ≫= _).
  - destruct (upload_single st part) as [st1 f] eqn:Hup.
    pose proof (upload_single_frame st part) as [Hi Hn]. rewrite Hup in Hi, Hn.
    simpl in Hi, Hn. unfold replace_photo.
    destruct (first_match _ _) as [[k item]|]; simpl; [|by rewrite Hi].
    destruct f as [new|]; simpl; [|by rewrite Hi].
    by rewrite length_insert, Hi.
  - destruct (first_match (inventory st) (Js.JStr id)) as [[k item]|] eqn:Hk.
    + pose proof (delete_item_Some st id k item Hk) as Heq.
      simpl in Heq. rewrite Heq. simpl.
      apply first_match_lookup in Hk as [Hk _].
      rewrite length_delete by eauto.
      apply lookup_lt_Some in Hk. lia.
    + pose proof (delete_item_None st id Hk) as Heq.
      simpl in Heq. by rewrite Heq.
  - unfold search. by destruct (findItem _ _).
Qed.

(** X6: after any requests served from startup, the collection holds as
    many items as registrations succeeded, less the deletions that were
    confirmed. *)
Theorem inventory_length dir reqs :
  let '(st, rs) := serve (startup dir) reqs in
  (length (inventory st) + deletions rs = length (created_ids rs))%nat.
Proof.
  assert (∀ st0, let '(st, rs) := serve st0 reqs in
                 (length (inventory st) + deletions rs
                  = length (inventory st0) + length (created_ids rs))%nat) as H.
  { induction reqs as [|req reqs IH]; intros st0; simpl; [done|].
    pose proof (handle_length st0 req) as Hh.
    destruct (handle st0 req) as [st1 r].
    specialize (IH st1). destruct (serve st1 reqs) as [st2 rs].
    rewrite deletions_cons, created_ids_cons, length_app. lia. }
  specialize (H (startup dir)).
  by destruct (serve (startup dir) reqs) as [st rs].
Qed.

End Collection.

(** ** The photo fields over a run *)

Section PhotoFields.
Implicit Types (st : store) (req : request) (item : Item.t).

Lemma upload_single_name st part st1 new :
  upload_single st part = (st1, Some new) → new ≠ "".
Proof.
  unfold upload_single. destruct part as [file|]; [|done].
  destruct (fileFilter file); [|done]. intros [= _ <-]. apply filename_nonempty.
Qed.

Lemma photo_linked_same item item' :
  Item.id item' = Item.id item → Item.photo item' = Item.photo item →
  Item.photo_url item' = Item.photo_url item →
  photo_linked item → photo_linked item'.
Proof. unfold photo_linked. by intros -> -> ->. Qed.

Lemma handle_photo_linked st req :
  Forall photo_linked (inventory st) →
  Forall photo_linked (inventory (fst (handle st req))).
Proof.
  intros Hall.
  destruct req as [body part| |id|id body|id|id part|id|body]; simpl.
  - destruct (upload_single st part) as [st1 f] eqn:Hup.
    pose proof (upload_single_frame st part) as [Hi Hn]. rewrite Hup in Hi, Hn.
    simpl in Hi, Hn. unfold register.
    destruct (Js.truthy (Body.inventory_name body)); simpl; [|by rewrite Hi].
    destruct (Body.inventory_name body) as [| |b|n|s|o]; simpl; try (by rewrite Hi).
    destruct (String.eqb (Js.trim s) ""); simpl; [by rewrite Hi|].
    rewrite Hi. apply Forall_app. split; [done|].
    constructor; [|constructor]. unfold photo_linked. simpl.
    destruct f as [new|]; [|done]. split.
    + by eapply upload_single_name.
    + eexists. split; [done|]. apply parseInt_pretty.
  - done.
  - unfold get_item. by destruct (findItem _ _).
  - destruct (first_match (inventory st) (Js.JStr id)) as [[k item]|] eqn:Hk.
    + destruct (update_item_Some st id body k item Hk)
        as (item' & Heq & Hid & Hp & Hu & _).
      simpl in Heq. rewrite Heq. simpl.
      apply first_match_lookup in Hk as [Hk _].
      apply Forall_insert; [done|].
      eapply photo_linked_same; [done..|]. by eapply (Forall_lookup_1 _ _ _ _ Hall).
    + unfold update_item. by rewrite Hk.
  - unfold fetch_photo. destruct (findItem _ _) as [item|]; [|done].
    destruct (has_photo item); simpl; [|done].
    by destruct (Item.photo item ≫= _).
  - destruct (upload_single st part) as [st1 f] eqn:Hup.
    pose proof (upload_single_frame st part) as [Hi Hn]. rewrite Hup in Hi, Hn.
    simpl in Hi, Hn. unfold replace_photo.
    destruct (first_match _ _) as [[k item]|] eqn:Hk; simpl; [|by rewrite Hi].
    destruct f as [new|]; simpl; [|by rewrite Hi].
    rewrite Hi. apply Forall_insert; [done|].
    apply first_match_lookup in Hk as [_ Hid].
    unfold photo_linked. simpl. split; [by eapply upload_single_name|].
    exists id. split; [done|]. symmetry. exact Hid.
  - destruct (first_match (inventory st) (Js.JStr id)) as [[k item]|] eqn:Hk.
    + pose proof (delete_item_Some st id k item Hk) as Heq.
      simpl in Heq. rewrite Heq. simpl. by apply Forall_delete.
    + pose proof (delete_item_None st id Hk) as Heq.
      simpl in Heq. by rewrite Heq.
  - unfold search. by destruct (findItem _ _).
Qed.

Lemma serve_photo_linked reqs st :
  Forall photo_linked (inventory st) →
  Forall photo_linked (inventory (fst (serve st reqs))).
Proof.
  revert st. induction reqs as [|req reqs IH]; intros st Hst; simpl; [done|].
  pose proof (handle_photo_linked st req Hst) as H1.
  destruct (handle st req) as [st1 r]. specialize (IH st1 H1).
  by destruct (serve st1 reqs).
Qed.

(** X7: after any requests served from startup, each item of the
    collection has [photo] and [photo_url] both [null] or both set; when
    they are set, [photo] is a file name that is not empty and
    [photo_url] is the photo path of an id text for which
    [GET /inventory/:id] returns this very item. *)
Theorem photo_url_leads_back dir reqs k item :
  let st := fst (serve (startup dir) reqs) in
  inventory st !! k = Some item →
  (Item.photo item = None ∧ Item.photo_url item = None) ∨
  (∃ f id, Item.photo item = Some f ∧ f ≠ "" ∧
           Item.photo_url item = Some (photo_path id) ∧
           handle st (GetItem id) = (st, Response 200 (ItemJson item))).
Proof.
  intros st Hk.
  assert (item ∈ inventory st) as Hin by (by eapply list_elem_of_lookup_2).
  assert (Forall photo_linked (inventory st)) as Hall
    by (apply serve_photo_linked; constructor).
  assert (NoDup (Item.id <$> inventory st)) as Hnd
    by (apply serve_distinct_ids, startup_distinct_ids).
  eapply Forall_forall in Hall; [|exact Hin].
  unfold photo_linked in Hall.
  destruct (Item.photo item) as [f|], (Item.photo_url item) as [u|]; try done;
    [|by left].
  destruct Hall as (Hf & id & -> & Hid). right. exists f, id.
  split_and!; [done..|].
  apply get_item_Some, findItem_Some.
  apply first_match_unique; [done..|].
  unfold same_id, Js.strict_eq. cbn [Js.to_string]. by rewrite Hid.
Qed.

Lemma photo_url_leads_back_witness :
  let item := Item.mk 2 (Js.JStr "Saw") (Js.JStr "") (Some (filename png))
                (Some (photo_path "2")) in
  let st := fst (serve (startup ∅)
                   [PostRegister (named "Drill") None;
                    PostRegister (named "Saw") (Some png)]) in
  (Item.photo item = None ∧ Item.photo_url item = None) ∨
  (∃ f id, Item.photo item = Some f ∧ f ≠ "" ∧
           Item.photo_url item = Some (photo_path id) ∧
           handle st (GetItem id) = (st, Response 200 (ItemJson item))).
Proof.
  apply (photo_url_leads_back ∅
           [PostRegister (named "Drill") None;
            PostRegister (named "Saw") (Some png)] 1%nat).
  reflexivity.
Defined.

End PhotoFields.

(** ** Requests that fail, requests that read *)

Section Failures.
Implicit Types (st : store) (req : request) (item : Item.t).

Lemma upload_single_not_accepted st part :
  accepted part = false → upload_single st part = (st, None).
Proof.
  unfold accepted, upload_single. destruct part as [file|]; [|done]. by intros ->.
Qed.

(** X8: [PUT /inventory/:id/photo] on an existing item, without a part
    that the upload filter accepts (no photo, or a photo whose media type
    does not begin with [image/]), answers 400 and leaves the store as it
    was: the collection, the counter and every file. *)
Theorem replace_photo_requires_image st id part item :
  findItem (inventory st) (Js.JStr id) = Some item →
  accepted part = false →
  handle st (PutPhoto id part)
  = (st, Response 400 (ErrorJson "Photo file is required")).
Proof.
  intros [k Hk]%findItem_Some Hacc. unfold handle.
  rewrite (upload_single_not_accepted _ _ Hacc).
  unfold replace_photo. by rewrite Hk.
Qed.

Lemma replace_photo_requires_image_witness :
  handle shop (PutPhoto "2" (Some txt))
  = (shop, Response 400 (ErrorJson "Photo file is required")).
Proof.
  apply (replace_photo_requires_image shop "2" (Some txt) saw); reflexivity.
Defined.

(** X9: [PUT /inventory/:id/photo] for an id that no item has answers
    404 and leaves the collection and the counter as they were; an image
    that came with the request has been written by the middleware all the
    same and stays in the cache directory, referenced by no item of the
    request. *)
Theorem replace_photo_unknown_item st id file :
  findItem (inventory st) (Js.JStr id) = None →
  fileFilter file = true →
  let '(st', r) := handle st (PutPhoto id (Some file)) in
  r = Response 404 (ErrorJson "Item not found") ∧
  inventory st' = inventory st ∧
  nextId st' = nextId st ∧
  cache st' = <[filename file := File.data file]> (cache st).
Proof.
  intros Hk%findItem_None Hf. unfold handle, upload_single. rewrite Hf.
  unfold replace_photo. cbn [inventory]. by rewrite Hk.
Qed.

Lemma replace_photo_unknown_item_witness :
  let '(st', r) := handle shop (PutPhoto "9" (Some jpg)) in
  r = Response 404 (ErrorJson "Item not found") ∧
  inventory st' = inventory shop ∧
  nextId st' = nextId shop ∧
  cache st' = <[filename jpg := File.data jpg]> (cache shop).
Proof.
  apply (replace_photo_unknown_item shop "9" jpg); reflexivity.
Defined.

(** X10: a replacement of the photo changes, in the collection, only
    the [photo] and [photo_url] of the item found: its id, name and
    description stay, the other items stay, the counter stays.  The new
    [photo_url] is the photo path of the id text of the request.  In the
    cache directory, only the file of the upload and the file the item
    referred to before are touched. *)
Theorem replace_photo_frame st id file k item :
  first_match (inventory st) (Js.JStr id) = Some (k, item) →
  fileFilter file = true →
  let '(st', r) := handle st (PutPhoto id (Some file)) in
  (∃ item', inventory st' !! k = Some item' ∧
            r = Response 200 (ItemJson item') ∧
            Item.id item' = Item.id item ∧
            Item.inventory_name item' = Item.inventory_name item ∧
            Item.description item' = Item.description item ∧
            Item.photo item' = Some (filename file) ∧
            Item.photo_url item' = Some (photo_path id)) ∧
  length (inventory st') = length (inventory st) ∧
  (∀ j, j ≠ k → inventory st' !! j = inventory st !! j) ∧
  nextId st' = nextId st ∧
  (∀ g, g ≠ filename file → Item.photo item ≠ Some g →
        cache st' !! g = cache st !! g).
Proof.
  intros Hk Hf. unfold handle, upload_single. rewrite Hf.
  unfold replace_photo. cbn [inventory nextId cache]. rewrite Hk.
  cbn [inventory nextId cache].
  apply first_match_lookup in Hk as [Hk _].
  split_and!; [ | by rewrite length_insert | | done | ].
  - eexists. split_and!; [|done..].
    apply list_lookup_insert_eq. by eapply lookup_lt_Some.
  - intros j Hj. by rewrite list_lookup_insert_ne.
  - intros g Hg Hold. rewrite drop_photo_other by done.
    by rewrite lookup_insert_ne.
Qed.

Lemma replace_photo_frame_witness :
  let '(st', r) := handle shop (PutPhoto "2" (Some jpg)) in
  (∃ item', inventory st' !! 1%nat = Some item' ∧
            r = Response 200 (ItemJson item') ∧
            Item.id item' = Item.id saw ∧
            Item.inventory_name item' = Item.inventory_name saw ∧
            Item.description item' = Item.description saw ∧
            Item.photo item' = Some (filename jpg) ∧
            Item.photo_url item' = Some (photo_path "2")) ∧
  length (inventory st') = length (inventory shop) ∧
  (∀ j, j ≠ 1%nat → inventory st' !! j = inventory shop !! j) ∧
  nextId st' = nextId shop ∧
  (∀ g, g ≠ filename jpg → Item.photo saw ≠ Some g →
        cache st' !! g = cache shop !! g).
Proof.
  apply (replace_photo_frame shop "2" jpg 1%nat saw); reflexivity.
Defined.

Lemma handle_failure st req :
  let '(st', r) := handle st req in
  status r ≠ 200 → status r ≠ 201 →
  inventory st' = inventory st ∧
  nextId st' = nextId st ∧
  (∀ g, is_Some (cache st !! g) → is_Some (cache st' !! g)).
Proof.
  assert (∀ part st1 f, upload_single st part = (st1, f) →
            inventory st1 = inventory st ∧ nextId st1 = nextId st ∧
            (∀ g, is_Some (cache st !! g) → is_Some (cache st1 !! g))) as Hup.
  { intros part st1 f. unfold upload_single.
    destruct part as [file|]; [destruct (fileFilter file)|]; intros [= <- _];
      split_and!; try done.
    intros g Hg. cbn [cache]. rewrite lookup_insert. by case_decide. }
  destruct req as [body part| |id|id body|id|id part|id|body]; simpl.
  - destruct (upload_single st part) as [st1 f] eqn:H1.
    apply Hup in H1. unfold register.
    destruct (Js.truthy (Body.inventory_name body)); simpl; [|by intros].
    destruct (Body.inventory_name body) as [| |b|n|s|o]; simpl; try (by intros).
    destruct (String.eqb (Js.trim s) ""); simpl; by intros.
  - done.
  - unfold get_item. by destruct (findItem _ _).
  - unfold update_item. destruct (first_match _ _) as [[k item]|]; simpl; done.
  - unfold fetch_photo. destruct (findItem _ _) as [item|]; [|done].
    destruct (has_photo item); simpl; [|done].
    by destruct (Item.photo item ≫= _).
  - destruct (upload_single st part) as [st1 f] eqn:H1.
    apply Hup in H1. unfold replace_photo.
    destruct (first_match _ _) as [[k item]|]; simpl; [|by intros].
    destruct f; simpl; by intros.
  - destruct (first_match (inventory st) (Js.JStr id)) as [[k item]|] eqn:Hk.
    + pose proof (delete_item_Some st id k item Hk) as Heq.
      simpl in Heq. rewrite Heq. simpl. done.
    + pose proof (delete_item_None st id Hk) as Heq.
      simpl in Heq. by rewrite Heq.
  - unfold search. by destruct (findItem _ _).
Qed.

(** X11: a request that is not answered with 200 or 201 leaves the
    collection and the counter as they were, and removes no file from the
    cache directory. *)
Theorem failure_keeps_collection st req :
  status (snd (handle st req)) ≠ 200 →
  status (snd (handle st req)) ≠ 201 →
  inventory (fst (handle st req)) = inventory st ∧
  nextId (fst (handle st req)) = nextId st ∧
  (∀ g, is_Some (cache st !! g) → is_Some (cache (fst (handle st req)) !! g)).
Proof.
  pose proof (handle_failure st req) as H.
  destruct (handle st req) as [st' r]. exact H.
Qed.

Lemma failure_keeps_collection_witness :
  inventory (fst (handle shop (PostRegister (named " ") (Some jpg)))) = inventory shop ∧
  nextId (fst (handle shop (PostRegister (named " ") (Some jpg)))) = nextId shop ∧
  (∀ g, is_Some (cache shop !! g) →
        is_Some (cache (fst (handle shop (PostRegister (named " ") (Some jpg)))) !! g)).
Proof.
  apply (failure_keeps_collection shop (PostRegister (named " ") (Some jpg)));
    vm_compute; discriminate.
Defined.

Lemma handle_read_only st req :
  read_only req = true → fst (handle st req) = st.
Proof.
  destruct req as [body part| |id|id body|id|id part|id|body]; try done; intros _; simpl.
  - unfold get_item. by destruct (findItem _ _).
  - unfold fetch_photo. destruct (findItem _ _) as [item|]; [|done].
    destruct (has_photo item); simpl; [|done].
    by destruct (Item.photo item ≫= _).
  - apply search_pure.
Qed.

(** X12: listing, fetching an item, fetching a photo and searching
    change nothing: any sequence of such requests, answered whatever way,
    leaves the store as it was, and each of them gets the answer it
    would have got alone. *)
Theorem reads_leave_store reqs st :
  forallb read_only reqs = true →
  serve st reqs = (st, (λ req, snd (handle st req)) <$> reqs).
Proof.
  induction reqs as [|req reqs IH]; [done|]. cbn [forallb].
  intros [Hr Hrs]%andb_prop. rewrite fmap_cons. cbn [serve].
  pose proof (handle_read_only st req Hr) as Hst.
  destruct (handle st req) as [st1 r]. cbn [fst] in Hst. subst st1.
  by rewrite (IH Hrs).
Qed.

Lemma reads_leave_store_witness :
  serve shop [GetInventory; GetItem "2"; GetPhoto "2"; GetPhoto "1"]
  = (shop, (λ req, snd (handle shop req))
           <$> [GetInventory; GetItem "2"; GetPhoto "2"; GetPhoto "1"]).
Proof.
  apply (reads_leave_store [GetInventory; GetItem "2"; GetPhoto "2"; GetPhoto "1"] shop).
  reflexivity.
Defined.

End Failures.

(** ** How an id text addresses an item *)

Section Addressing.
Implicit Types (st : store) (item : Item.t) (inv : list Item.t).

(** The lookup sees of the requested id only what [parseInt] makes of
    its text. *)
Lemma first_match_parse inv (v w : Js.value) :
  Js.parseInt (Js.to_string v) = Js.parseInt (Js.to_string w) →
  first_match inv v = first_match inv w.
Proof.
  intros Heq. unfold first_match. apply list_find_ext.
  intros i. unfold same_id. by rewrite Heq.
Qed.



(** X15: two id texts that [parseInt] reads as the same number are
    interchangeable in [GET /inventory/:id], [PUT /inventory/:id],
    [GET /inventory/:id/photo] and [DELETE /inventory/:id]: the store
    and the response are the same. *)
Theorem same_number_same_answer st id1 id2 body :
  Js.parseInt id1 = Js.parseInt id2 →
  handle st (GetItem id1) = handle st (GetItem id2) ∧
  handle st (PutItem id1 body) = handle st (PutItem id2 body) ∧
  handle st (GetPhoto id1) = handle st (GetPhoto id2) ∧
  handle st (DeleteItem id1) = handle st (DeleteItem id2).
Proof.
  intros Heq.
  pose proof (first_match_parse (inventory st) (Js.JStr id1) (Js.JStr id2) Heq) as Hm.
  simpl. unfold get_item, update_item, fetch_photo, delete_item, findItem, findItemIndex.
  by rewrite Hm.
Qed.

Lemma same_number_same_answer_witness :
  handle shop (GetItem "2") = handle shop (GetItem " 0x2;") ∧
  handle shop (PutItem "2" (named "Bow saw")) = handle shop (PutItem " 0x2;" (named "Bow saw")) ∧
  handle shop (GetPhoto "2") = handle shop (GetPhoto " 0x2;") ∧
  handle shop (DeleteItem "2") = handle shop (DeleteItem " 0x2;").
Proof.
  apply (same_number_same_answer shop "2" " 0x2;" (named "Bow saw")).
  reflexivity.
Defined.

(** X16: the id of a request is read leniently: white space in front of
    the decimal text of a positive number, and anything behind it that
    does not go on with a digit, are ignored, so that such a text
    addresses the same item as the decimal text alone. *)
Theorem id_text_lenient st n ws junk :
  0 < n → all_white ws = true → stops_number junk = true →
  Js.parseInt (ws +:+ pretty n +:+ junk) = Some n ∧
  handle st (GetItem (ws +:+ pretty n +:+ junk)) = handle st (GetItem (pretty n)).
Proof.
  intros Hn Hws Hjunk.
  assert (Js.parseInt (ws +:+ pretty n +:+ junk) = Some n) as Hp.
  { rewrite parseInt_app_white by done.
    destruct n as [|p|p]; [lia | | lia]. by apply parseInt_positive. }
  split; [done|].
  simpl. unfold get_item, findItem.
  rewrite (first_match_parse _ (Js.JStr (ws +:+ pretty n +:+ junk)) (Js.JStr (pretty n)));
    [done|].
  cbn [Js.to_string]. by rewrite Hp, parseInt_pretty.
Qed.

Lemma id_text_lenient_witness :
  Js.parseInt ("  " +:+ pretty 2 +:+ "nd item") = Some 2 ∧
  handle shop (GetItem ("  " +:+ pretty 2 +:+ "nd item")) = handle shop (GetItem (pretty 2)).
Proof.
  apply (id_text_lenient shop 2 "  " "nd item"); [lia | reflexivity | reflexivity].
Defined.

Lemma find_delete_other {A} (P : A → Prop) `{!∀ x, Decision (P x)} (l : list A) k x :
  l !! k = Some x → ¬ P x →
  snd <$> list_find P (delete k l) = snd <$> list_find P l.
Proof.
  revert k. induction l as [|y l IH]; intros k Hk Hx; [done|].
  destruct k as [|k]; simpl in Hk |- *.
  - injection Hk as ->. rewrite decide_False by done.
    by destruct (list_find P l) as [[]|].
  - destruct (decide (P y)); [done|].
    specialize (IH k Hk Hx).
    destruct (list_find P (delete k l)) as [[]|], (list_find P l) as [[]|];
      simpl in *; congruence.
Qed.

(** X17: a deletion does not change what any other id finds: after
    [DELETE /inventory/:id] has removed an item, every id text that does
    not parse to the id of that item finds what it found before. *)
Theorem delete_keeps_others st id k item (v : Js.value) :
  first_match (inventory st) (Js.JStr id) = Some (k, item) →
  Js.parseInt (Js.to_string v) ≠ Some (Item.id item) →
  findItem (inventory (fst (handle st (DeleteItem id)))) v = findItem (inventory st) v.
Proof.
  intros Hk Hv. rewrite (delete_item_Some _ _ _ _ Hk). cbn [fst inventory].
  apply first_match_lookup in Hk as [Hk _].
  unfold findItem, first_match. eapply find_delete_other; [exact Hk|].
  unfold same_id, Js.strict_eq. congruence.
Qed.

Lemma delete_keeps_others_witness :
  findItem (inventory (fst (handle shop (DeleteItem "1")))) (Js.JStr "2")
  = findItem (inventory shop) (Js.JStr "2").
Proof.
  apply (delete_keeps_others shop "1" 0%nat drill (Js.JStr "2")).
  - reflexivity.
  - vm_compute. discriminate.
Defined.

End Addressing.

(** ** Names of uploaded files *)

Section FileNames.
Implicit Types (s t u : string) (x : N).

Lemma all_digits_app u1 u2 :
  all_digits u1 = true → all_digits u2 = true → all_digits (u1 +:+ u2) = true.
Proof.
  induction u1 as [|c u1 IH]; [done|]. intros H1 H2.
  change (String c u1 +:+ u2) with (String c (u1 +:+ u2)).
  cbn [all_digits] in H1 |- *. destruct (Js.digit 10 c); [by apply IH | done].
Qed.

Lemma string_app_assoc s t u : (s +:+ t) +:+ u = s +:+ (t +:+ u).
Proof.
  induction s as [|c s IH]; [done|].
  change (String c ((s +:+ t) +:+ u) = String c (s +:+ (t +:+ u))). by rewrite IH.
Qed.

(** The text of a number is made of digits, put in front of what
    follows. *)
Lemma pretty_N_go_digits x :
  ∃ u, all_digits u = true ∧ ∀ s, pretty_N_go x s = u +:+ s.
Proof.
  induction (N.lt_wf_0 x) as [x _ IH].
  assert (x = 0 ∨ 0 < x)%N as [-> | Hx] by lia.
  - exists "". split; [done|]. intros s. by rewrite pretty_N_go_0.
  - destruct (IH (x `div` 10)%N ltac:(apply N.div_lt; lia)) as (u & Hu & Hgo).
    exists (u +:+ String (pretty_N_char (x `mod` 10)) ""). split.
    + apply all_digits_app; [done|]. cbn [all_digits].
      by rewrite digit_pretty_N_char by (apply N.mod_lt; lia).
    + intros s. rewrite pretty_N_go_step, Hgo by done.
      by rewrite string_app_assoc.
Qed.

Lemma pretty_digits (n : Z) : 0 ≤ n → all_digits (pretty n) = true.
Proof.
  destruct n as [|p|p]; [done | | lia]. intros _.
  destruct (pretty_N_go_digits (Npos p)) as (u & Hu & Hgo).
  change (pretty (Zpos p)) with (pretty_N_go (Npos p) "").
  by rewrite Hgo, string_app_empty.
Qed.

(** A run of digits ends where the text stops being a number. *)
Lemma digits_split u1 u2 t1 t2 :
  all_digits u1 = true → all_digits u2 = true →
  stops_number t1 = true → stops_number t2 = true →
  u1 +:+ t1 = u2 +:+ t2 → u1 = u2 ∧ t1 = t2.
Proof.
  revert u2. induction u1 as [|c u1 IH]; intros [|c2 u2] H1 H2 Ht1 Ht2 Heq.
  - done.
  - exfalso. change ("" +:+ t1) with t1 in Heq. subst t1.
    change (String c2 u2 +:+ t2) with (String c2 (u2 +:+ t2)) in Ht1.
    cbn [all_digits stops_number] in H2, Ht1. by destruct (Js.digit 10 c2).
  - exfalso. change ("" +:+ t2) with t2 in Heq. subst t2.
    change (String c u1 +:+ t1) with (String c (u1 +:+ t1)) in Ht2.
    cbn [all_digits stops_number] in H1, Ht2. by destruct (Js.digit 10 c).
  - change (String c (u1 +:+ t1) = String c2 (u2 +:+ t2)) in Heq.
    injection Heq as -> Heq.
    cbn [all_digits] in H1, H2. destruct (Js.digit 10 c2); [|done].
    destruct (IH u2 H1 H2 Ht1 Ht2 Heq) as [-> ->]. done.
Qed.

(** X18: the names that the storage engine generates tell the readings
    apart: when the time stamps and the random numbers are not negative
    and the extensions do not start with a digit (an extension is empty
    or starts with a dot), two uploads get the same file name only if
    they have the same time stamp, the same random number and the same
    extension. *)
Theorem filename_inj f1 f2 :
  0 ≤ File.now f1 → 0 ≤ File.random f1 → stops_number (File.extname f1) = true →
  0 ≤ File.now f2 → 0 ≤ File.random f2 → stops_number (File.extname f2) = true →
  filename f1 = filename f2 →
  File.now f1 = File.now f2 ∧ File.random f1 = File.random f2 ∧
  File.extname f1 = File.extname f2.
Proof.
  intros Hn1 Hr1 He1 Hn2 Hr2 He2. unfold filename. intros Heq.
  apply digits_split in Heq as [Hnow Hrest]; [ | by apply pretty_digits.. | done | done].
  change (String "-" (pretty (File.random f1) +:+ File.extname f1)
          = String "-" (pretty (File.random f2) +:+ File.extname f2)) in Hrest.
  injection Hrest as Hrest.
  apply digits_split in Hrest as [Hrnd Hext]; [ | by apply pretty_digits.. | done | done].
  split_and!; [by apply (inj pretty) | by apply (inj pretty) | done].
Qed.

Lemma filename_inj_witness :
  File.now png = File.now png ∧ File.random png = File.random png ∧
  File.extname png = File.extname png.
Proof.
  apply (filename_inj png png); [simpl; lia | simpl; lia | reflexivity
                                | simpl; lia | simpl; lia | reflexivity | reflexivity].
Defined.

End FileNames.

(** ** What a run leaves alone *)

Section Frame.
Implicit Types (st : store) (req : request) (names : list string).

(** X19: a registration hides no item: whatever an id found in the
    collection before, it finds afterwards. *)
Theorem register_keeps_others st body part (v : Js.value) item :
  findItem (inventory st) v = Some item →
  findItem (inventory (fst (handle st (PostRegister body part)))) v = Some item.
Proof.
  intros [k Hk]%findItem_Some. unfold handle.
  destruct (upload_single st part) as [st1 f] eqn:Hup.
  pose proof (upload_single_frame st part) as [Hi _]. rewrite Hup in Hi.
  cbn [fst] in Hi. apply findItem_Some.
  unfold register.
  destruct (Js.truthy (Body.inventory_name body)); cbn [negb fst];
    [|rewrite Hi; eauto].
  destruct (Body.inventory_name body) as [| |b|n|s|o]; cbn [fst];
    try (rewrite Hi; by eauto).
  destruct (Js.truthy (Js.JStr (Js.trim s))); cbn [negb fst inventory];
    [|rewrite Hi; eauto].
  rewrite Hi. exists k. by apply list_find_app_l.
Qed.

Lemma register_keeps_others_witness :
  findItem (inventory (fst (handle shop (PostRegister (named "Plane") (Some jpg)))))
           (Js.JStr "2") = Some saw.
Proof.
  apply (register_keeps_others shop (named "Plane") (Some jpg) (Js.JStr "2") saw).
  reflexivity.
Defined.

Lemma photos_among_mono names names' st :
  names ⊆ names' → photos_among names st → photos_among names' st.
Proof.
  intros Hsub H. unfold photos_among in *. eapply Forall_impl; [exact H|].
  intros item Hi f Hf. apply Hsub. by apply Hi.
Qed.

Lemma upload_single_names st part st1 f :
  upload_single st part = (st1, f) →
  (∀ new, f = Some new → new ∈ upload_names [PutPhoto "" part]) ∧
  (∀ g, g ∉ upload_names [PutPhoto "" part] → cache st1 !! g = cache st !! g).
Proof.
  unfold upload_single, upload_names. cbn.
  destruct part as [file|]; [destruct (fileFilter file)|]; intros [= <- <-];
    split; try done.
  - intros new [= <-]. rewrite app_nil_r. apply list_elem_of_singleton. done.
  - intros g Hg. cbn [cache]. apply lookup_insert_ne. intros <-. apply Hg.
    rewrite app_nil_r. by apply list_elem_of_singleton.
Qed.

Lemma handle_names st req names :
  photos_among names st →
  photos_among (upload_names [req] ++ names)%list (fst (handle st req)) ∧
  (∀ g, g ∉ (upload_names [req] ++ names)%list →
        cache (fst (handle st req)) !! g = cache st !! g).
Proof.
  intros Hall.
  assert (photos_among (upload_names [req] ++ names)%list st) as Hall'
    by (eapply photos_among_mono; [|exact Hall];
        intros x Hx; apply elem_of_app; by right).
  destruct req as [body part| |id|id body|id|id part|id|body]; simpl.
  - destruct (upload_single st part) as [st1 f] eqn:Hup.
    pose proof (upload_single_frame st part) as [Hi Hn]. rewrite Hup in Hi, Hn.
    simpl in Hi, Hn.
    destruct (upload_single_names _ _ _ _ Hup) as [Hnew Hother].
    change (upload_names [PostRegister body part])
      with (upload_names [PutPhoto "" part]) in *.
    assert (photos_among (upload_names [PutPhoto "" part] ++ names)%list st1) as H1
      by (unfold photos_among; by rewrite Hi).
    assert (∀ g, g ∉ (upload_names [PutPhoto "" part] ++ names)%list →
                 cache st1 !! g = cache st !! g) as H2
      by (intros g Hg; apply Hother; intros Hin; apply Hg, elem_of_app; by left).
    unfold register.
    destruct (Js.truthy (Body.inventory_name body)); simpl; [|done].
    destruct (Body.inventory_name body) as [| |b|n|s|o]; simpl; try done.
    destruct (String.eqb (Js.trim s) ""); simpl; [done|].
    split; [|done]. unfold photos_among. cbn [inventory].
    apply Forall_app. split; [exact H1|].
    constructor; [|constructor]. cbn [Item.photo]. intros g ->.
    apply elem_of_app. left. by apply Hnew.
  - done.
  - unfold get_item. by destruct (findItem _ _).
  - destruct (first_match (inventory st) (Js.JStr id)) as [[k item]|] eqn:Hk.
    + destruct (update_item_Some st id body k item Hk)
        as (item' & Heq & _ & Hp & _).
      simpl in Heq. rewrite Heq. simpl. split; [|done].
      apply first_match_lookup in Hk as [Hk _].
      apply Forall_insert; [done|]. rewrite Hp.
      by eapply (Forall_lookup_1 _ _ _ _ Hall').
    + unfold update_item. by rewrite Hk.
  - unfold fetch_photo. destruct (findItem _ _) as [item|]; [|done].
    destruct (has_photo item); simpl; [|done].
    by destruct (Item.photo item ≫= _).
  - destruct (upload_single st part) as [st1 f] eqn:Hup.
    pose proof (upload_single_frame st part) as [Hi Hn]. rewrite Hup in Hi, Hn.
    simpl in Hi, Hn.
    destruct (upload_single_names _ _ _ _ Hup) as [Hnew Hother].
    change (upload_names [PutPhoto id part])
      with (upload_names [PutPhoto "" part]) in *.
    assert (photos_among (upload_names [PutPhoto "" part] ++ names)%list st1) as H1
      by (unfold photos_among; by rewrite Hi).
    assert (∀ g, g ∉ (upload_names [PutPhoto "" part] ++ names)%list →
                 cache st1 !! g = cache st !! g) as H2
      by (intros g Hg; apply Hother; intros Hin; apply Hg, elem_of_app; by left).
    unfold replace_photo.
    destruct (first_match _ _) as [[k item]|] eqn:Hk; simpl; [|done].
    destruct f as [new|]; simpl; [|done].
    apply first_match_lookup in Hk as [Hk _]. split.
    + apply Forall_insert; [done|]. cbn [Item.photo]. intros g [= <-].
      apply elem_of_app. left. by apply Hnew.
    + intros g Hg. rewrite drop_photo_other; [by apply H2|].
      intros Hold. apply Hg.
      by eapply (Forall_lookup_1 _ _ _ _ H1 Hk).
  - destruct (first_match (inventory st) (Js.JStr id)) as [[k item]|] eqn:Hk.
    + pose proof (delete_item_Some st id k item Hk) as Heq.
      simpl in Heq. rewrite Heq. simpl.
      apply first_match_lookup in Hk as [Hk _]. split.
      * by apply Forall_delete.
      * intros g Hg. apply drop_photo_other. intros Hold. apply Hg.
        by eapply (Forall_lookup_1 _ _ _ _ Hall' Hk).
    + pose proof (delete_item_None st id Hk) as Heq.
      simpl in Heq. by rewrite Heq.
  - unfold search. by destruct (findItem _ _).
Qed.

Lemma upload_names_cons req reqs :
  upload_names (req :: reqs) = (upload_names [req] ++ upload_names reqs)%list.
Proof. unfold upload_names. cbn. by rewrite app_nil_r. Qed.

Lemma serve_names reqs st names :
  photos_among names st →
  ∀ g, g ∉ (upload_names reqs ++ names)%list →
       cache (fst (serve st reqs)) !! g = cache st !! g.
Proof.
  revert st names. induction reqs as [|req reqs IH]; intros st names Hall g Hg;
    simpl; [done|].
  destruct (handle_names st req names Hall) as [H1 H2].
  destruct (handle st req) as [st1 r]. cbn [fst] in H1, H2.
  specialize (IH st1 _ H1 g). destruct (serve st1 reqs) as [st2 rs].
  cbn [fst] in IH |- *. rewrite upload_names_cons in Hg.
  rewrite !not_elem_of_app in Hg. destruct Hg as [[Hg1 Hg2] Hg3].
  rewrite IH by (rewrite !not_elem_of_app; done).
  apply H2. by rewrite not_elem_of_app.
Qed.

(** X20: the service touches only files it has named itself: over any
    requests served from startup, a file name that the middleware did not
    generate for an accepted upload of the run holds afterwards what the
    cache directory held under it at startup, or nothing if it held
    nothing. *)
Theorem foreign_files_untouched dir reqs g :
  g ∉ upload_names reqs →
  cache (fst (serve (startup dir) reqs)) !! g = dir !! g.
Proof.
  intros Hg. apply (serve_names reqs (startup dir) []).
  - constructor.
  - by rewrite app_nil_r.
Qed.

Lemma foreign_files_untouched_witness :
  cache (fst (serve (startup {[ "notes.txt" := "keep" ]})
                [PostRegister (named "Saw") (Some png); DeleteItem "1"]))
        !! "notes.txt"
  = ({[ "notes.txt" := "keep" ]} : gmap string string) !! "notes.txt".
Proof.
  apply (foreign_files_untouched {[ "notes.txt" := "keep" ]}
           [PostRegister (named "Saw") (Some png); DeleteItem "1"] "notes.txt").
  apply (bool_decide_unpack _). vm_compute. reflexivity.
Defined.

End Frame.

(** ** Which id texts find an item *)

Section LenientLookup.
Implicit Types (st : store) (id : string) (item : Item.t).






(** The texts [2.9] and [ 2nd] find the item whose id is 2; the text
    [two] finds nothing. *)
Example get_item_fraction : snd (handle shop (GetItem "2.9")) = Response 200 (ItemJson saw).
Proof. reflexivity. Qed.

Example get_item_ordinal : snd (handle shop (GetItem " 2nd")) = Response 200 (ItemJson saw).
Proof. reflexivity. Qed.

End LenientLookup.
